(** * getnew: selection, relocation and archive dispatch

    A shallow embedding of [cmd/root.go] of coljac/getnew.  The repository
    holds two revisions of that file: the current one (with [moveFile],
    [unarchiveFile] and the [--unarchive] flag) is embedded at top level, the
    earlier one (a single [moveNthNewestFile] that renames) in [Module RootV1].

    Go's library functions are not part of the repository.  Those with a short
    exact definition ([strings.Contains], [filepath.Ext], the ASCII path of
    [strings.ToLower]) are written out; the others ([sort.Slice],
    [filepath.Join], the Unicode tables, the file system's answers and the
    child process) are fields of the class [Runtime], so every theorem holds
    for each behaviour the library documentation allows. *)

From Stdlib Require Import ZArith Ascii String List Sorted Permutation DecimalString.
From stdpp Require Import base tactics option list sorting gmap strings.

Open Scope Z_scope.

(** ** Go values *)

(** [error]: [errorString] is what [fmt.Errorf] builds without [%w] (and what
    the operating system reports), [wrapError] what it builds with [%w]: the
    formatted message and the wrapped error. *)
Inductive error : Type :=
| errorString (s : string)
| wrapError (msg : string) (err : error).

Definition Error (e : error) : string :=
  match e with
  | errorString s => s
  | wrapError msg _ => msg
  end.


(** [fmt.Errorf(prefix + "%w", err)]. *)
Definition Errorf_w (prefix : string) (err : error) : error :=
  wrapError (prefix +:+ Error err) err.

(** A run-time panic: indexing a slice of length [len] at [idx]. *)
Inductive panic : Type :=
| IndexOutOfRange (idx : Z) (len : Z).

(** Go's [int] on the 64-bit targets: two's complement wrap-around. *)
Definition min_int : Z := - 2 ^ 63.
Definition max_int : Z := 2 ^ 63 - 1.
Definition wrap_int (z : Z) : Z := (z + 2 ^ 63) mod 2 ^ 64 - 2 ^ 63.
Definition int_sub (a b : Z) : Z := wrap_int (a - b).
Definition is_int (z : Z) : Prop := min_int <= z <= max_int.

(** [len(s)] as an [int]. *)
Definition len {A} (l : list A) : Z := Z.of_nat (length l).

(** The verb [%d]. *)
Definition itoa (z : Z) : string := NilZero.string_of_int (Z.to_int z).

(** [os.FileInfo], as far as the program reads it; [ModTime] is an instant,
    counted in nanoseconds. *)
Record FileInfo : Type := mkFileInfo {
  Name : string;
  ModTime : Z
}.

(** [os.DirEntry].  [Info()] fails with [InfoErr] when that is set (the file
    vanished since the directory was read) and otherwise describes the entry. *)
Record DirEntry : Type := mkDirEntry {
  entryName : string;
  IsDir : bool;
  entryModTime : Z;
  InfoErr : option error
}.

Definition Info (file : DirEntry) : FileInfo + error :=
  match InfoErr file with
  | Some err => inr err
  | None => inl (mkFileInfo (entryName file) (entryModTime file))
  end.

(** [time.Time.After]. *)
Definition After (t u : Z) : bool := u <? t.

(** ** Library functions with a short definition *)

Module strings.

Fixpoint HasPrefix (s prefix : string) {struct prefix} : bool :=
  match prefix with
  | EmptyString => true
  | String p prefix' =>
      match s with
      | EmptyString => false
      | String c s' => if Ascii.eqb c p then HasPrefix s' prefix' else false
      end
  end.

(** [strings.Contains(s, substr)]. *)
Fixpoint Contains (s substr : string) : bool :=
  HasPrefix s substr ||
  match s with
  | EmptyString => false
  | String _ s' => Contains s' substr
  end.

Definition isUpperASCII (c : ascii) : bool :=
  let n := N_of_ascii c in ((65 <=? n) && (n <=? 90))%N.

(** Bytes below [utf8.RuneSelf]. *)
Definition belowRuneSelf (c : ascii) : bool := (N_of_ascii c <? 128)%N.

Definition lowerByte (c : ascii) : ascii :=
  if isUpperASCII c then ascii_of_N (N_of_ascii c + 32) else c.

Fixpoint mapBytes (f : ascii -> ascii) (s : string) : string :=
  match s with
  | EmptyString => EmptyString
  | String c s' => String (f c) (mapBytes f s')
  end.

Fixpoint isASCII (s : string) : bool :=
  match s with
  | EmptyString => true
  | String c s' => belowRuneSelf c && isASCII s'
  end.

(** [strings.ToLower]: an ASCII-only string is folded byte by byte, any
    other goes rune by rune through the Unicode tables, here [unicode]. *)
Definition ToLower (unicode : string -> string) (s : string) : string :=
  if isASCII s then mapBytes lowerByte s else unicode s.

End strings.

Module filepath.

Definition isPathSeparator (c : ascii) : bool := Ascii.eqb c "/".

Fixpoint hasSeparator (s : string) : bool :=
  match s with
  | EmptyString => false
  | String c s' => isPathSeparator c || hasSeparator s'
  end.

(** [filepath.Ext]: the suffix beginning at the final dot of the final
    element of [path], empty if there is none.  The source scans from the
    right up to the first separator. *)
Fixpoint Ext (path : string) : string :=
  match path with
  | EmptyString => EmptyString
  | String c rest =>
      match Ext rest with
      | EmptyString =>
          if Ascii.eqb c "." && negb (hasSeparator rest) then path
          else EmptyString
      | e => e
      end
  end.

End filepath.

(** ** The world outside the process *)

(** The library calls the program makes, in the order it makes them. *)
Inductive call : Type :=
| CallReadDir (dir : string)
| CallOpen (path : string)
| CallCreate (path : string)
| CallCopy (dst src : string)
| CallClose (path : string)
| CallRemove (path : string)
| CallRename (oldpath newpath : string)
| CallRun (argv : list string).

(** Regular files by path, what was written to the two output streams, and
    the calls made so far. *)
Record World : Type := mkWorld {
  files : gmap string (list Byte.byte);
  stdout : list string;
  stderr : list string;
  calls : list call
}.

(** What a child process leaves behind: the files, its output on the
    inherited streams, and the error [cmd.Run] reports (nonzero exit or a
    command that could not be started). *)
Record ChildResult : Type := mkChildResult {
  child_files : gmap string (list Byte.byte);
  child_stdout : list string;
  child_stderr : list string;
  child_err : option error
}.

(** What [sort.Slice] asks of [less]. *)
Record less_ok {A} (less : A -> A -> bool) : Prop := mk_less_ok {
  less_asym : forall x y, less x y = true -> less y x = false;
  less_negtrans : forall x y z,
    less x y = false -> less y z = false -> less x z = false
}.

(** The element at a lower index is never [less]-after a later one. *)
Definition sorted_by {A} (less : A -> A -> bool) : list A -> Prop :=
  StronglySorted (fun x y => less y x = false).

(** The Go runtime and the operating system.
    - [unicode_ToLower]: the non-ASCII path of [strings.ToLower];
    - [sort_Slice]: [sort.Slice];
    - [filepath_Join];
    - [readDir]: what [os.ReadDir] answers;
    - [fault]: whether a call fails for a reason of the system's own
      (permissions, a full disk), and with which error;
    - [short_write]: how many bytes a failing [io.Copy] has written;
    - [child]: the external program. *)
Class Runtime : Type := {
  unicode_ToLower : string -> string;
  sort_Slice : (FileInfo -> FileInfo -> bool) -> list FileInfo -> list FileInfo;
  filepath_Join : string -> string -> string;
  readDir : string -> World -> list DirEntry + error;
  fault : call -> World -> option error;
  short_write : World -> nat;
  child : list string -> World -> ChildResult
}.

(** What the library documents of [sort.Slice]: the slice is sorted by
    [less] and holds the elements it held.  Nothing is promised about ties:
    "The sort is not guaranteed to be stable: equal elements may be reversed
    from their original order" (package sort). *)
Class RuntimeLaws (rt : Runtime) : Prop := {
  sort_Slice_Permutation : forall less l, sort_Slice less l ≡ₚ l;
  sort_Slice_sorted : forall less l,
    less_ok less -> sorted_by less (sort_Slice less l)
}.

(** ** Effects: a state monad over [World] that can abort *)

Inductive abort : Type :=
| Panicked (p : panic)
| Exited (code : Z).

Definition M (A : Type) : Type := World -> (A + abort) * World.

Definition ret {A} (a : A) : M A := fun w => (inl a, w).

Definition bind {A B} (m : M A) (k : A -> M B) : M B :=
  fun w =>
    match m w with
    | (inl a, w') => k a w'
    | (inr ab, w') => (inr ab, w')
    end.

Definition raise {A} (ab : abort) : M A := fun w => (inr ab, w).

(** [defer d; body]: [d] runs when [body] returns or panics, not when the
    process exits. *)
Definition defer {A B} (d : M B) (body : M A) : M A :=
  fun w =>
    match body w with
    | (inr (Exited c), w') => (inr (Exited c), w')
    | (r, w') => (r, snd (d w'))
    end.

Notation "'let*' x ':=' m 'in' k" := (bind m (fun x => k))
  (at level 10, x name, m at level 100, k at level 200,
   format "'[v' 'let*'  x  ':='  m  'in' '/' k ']'").

Definition nl : string := String (ascii_of_nat 10) EmptyString.

Definition record (c : call) (w : World) : World :=
  mkWorld (files w) (stdout w) (stderr w) (calls w ++ [c]).

Definition with_files (fs : gmap string (list Byte.byte)) (w : World) : World :=
  mkWorld fs (stdout w) (stderr w) (calls w).

(** [fmt.Printf] and [fmt.Fprintf(os.Stderr, ...)], already formatted. *)
Definition fmt_Printf (s : string) : M unit :=
  fun w => (inl tt, mkWorld (files w) (stdout w ++ [s]) (stderr w) (calls w)).

Definition fmt_Fprintf_Stderr (s : string) : M unit :=
  fun w => (inl tt, mkWorld (files w) (stdout w) (stderr w ++ [s]) (calls w)).

Definition os_Exit {A} (code : Z) : M A := raise (Exited code).

(** An open [*os.File] is named by the path it was opened at: reads and
    writes go to whatever that path holds at the time. *)
Abbreviation File := string (only parsing).

Section OS.
Context {rt : Runtime}.

Definition os_ReadDir (dir : string) : M (list DirEntry + error) :=
  fun w => (inl (readDir dir w), record (CallReadDir dir) w).

Definition os_Open (path : string) : M (File + error) :=
  fun w =>
    let w' := record (CallOpen path) w in
    match fault (CallOpen path) w with
    | Some err => (inl (inr err), w')
    | None =>
        match files w !! path with
        | Some _ => (inl (inl path), w')
        | None =>
            (inl (inr (errorString
               ("open " +:+ path +:+ ": no such file or directory"))), w')
        end
    end.

(** [os.Create] truncates an existing file. *)
Definition os_Create (path : string) : M (File + error) :=
  fun w =>
    let w' := record (CallCreate path) w in
    match fault (CallCreate path) w with
    | Some err => (inl (inr err), w')
    | None => (inl (inl path), with_files (<[path := []]> (files w)) w')
    end.

(** [io.Copy(dst, src)] with both files at offset 0 and [dst] just
    truncated: it returns the number of bytes written and the error. *)
Definition io_Copy (dst src : File) : M (Z * option error) :=
  fun w =>
    let w' := record (CallCopy dst src) w in
    let content := default [] (files w !! src) in
    match fault (CallCopy dst src) w with
    | Some err =>
        let written := take (short_write w) content in
        (inl (len written, Some err),
         with_files (<[dst := written]> (files w)) w')
    | None =>
        (inl (len content, None), with_files (<[dst := content]> (files w)) w')
    end.

Definition File_Close (f : File) : M (option error) :=
  fun w => (inl (fault (CallClose f) w), record (CallClose f) w).

Definition os_Remove (path : string) : M (option error) :=
  fun w =>
    let w' := record (CallRemove path) w in
    match fault (CallRemove path) w with
    | Some err => (inl (Some err), w')
    | None =>
        match files w !! path with
        | Some _ => (inl None, with_files (delete path (files w)) w')
        | None =>
            (inl (Some (errorString
               ("remove " +:+ path +:+ ": no such file or directory"))), w')
        end
    end.

Definition os_Rename (oldpath newpath : string) : M (option error) :=
  fun w =>
    let w' := record (CallRename oldpath newpath) w in
    match fault (CallRename oldpath newpath) w with
    | Some err => (inl (Some err), w')
    | None =>
        match files w !! oldpath with
        | Some content =>
            (inl None,
             with_files (<[newpath := content]> (delete oldpath (files w))) w')
        | None =>
            (inl (Some (errorString
               ("rename " +:+ oldpath +:+ " " +:+ newpath
                +:+ ": no such file or directory"))), w')
        end
    end.

(** [exec.Command(argv...)] with [Stdout] and [Stderr] set to the
    process's own, then [Run()]. *)
Definition cmd_Run (argv : list string) : M (option error) :=
  fun w =>
    let r := child argv w in
    (inl (child_err r),
     mkWorld (child_files r) (stdout w ++ child_stdout r)
             (stderr w ++ child_stderr r) (calls w ++ [CallRun argv])).

Definition ToLower (s : string) : string :=
  strings.ToLower unicode_ToLower s.

End OS.

(** ** The program (current revision) *)

(** The flag-bound package variables. *)
Record Flags : Type := mkFlags {
  sourceDir : string;
  nthNewest : Z;
  fileFilter : string;
  unarchive : bool
}.

(** [if len(args) > 0 { fileFilter = args[0] }]. *)
Definition withArgs (cfg : Flags) (args : list string) : Flags :=
  match args with
  | arg0 :: _ => mkFlags (sourceDir cfg) (nthNewest cfg) arg0 (unarchive cfg)
  | [] => cfg
  end.

(** The comparator handed to [sort.Slice]. *)
Definition newerFirst (a b : FileInfo) : bool := After (ModTime a) (ModTime b).

(** What lines 115-130 of [moveFile] come to: the file to move, an error
    returned, or a panic. *)
Inductive selection : Type :=
| Selected (fileToMove : FileInfo)
| Refused (err : error)
| Crashed (p : panic).

Section Program.
Context {rt : Runtime}.

(** The loop of [moveNthNewestFile] over the directory entries;
    [regularFiles] is the slice built so far. *)
Fixpoint collectFiles (entries : list DirEntry) (fileFilter : string)
    (regularFiles : list FileInfo) : list FileInfo + error :=
  match entries with
  | [] => inl regularFiles
  | file :: rest =>
      if negb (IsDir file) then
        match Info file with
        | inr err => inr (Errorf_w "failed to get file info: " err)
        | inl info =>
            if String.eqb fileFilter ""
               || strings.Contains (ToLower (Name info)) (ToLower fileFilter)
            then collectFiles rest fileFilter (regularFiles ++ [info])
            else collectFiles rest fileFilter regularFiles
        end
      else collectFiles rest fileFilter regularFiles
  end.

(** [moveFile], from the emptiness check to [regularFiles[nthNewest-1]]. *)
Definition selectFile (regularFiles : list FileInfo) (nthNewest : Z)
    (fileFilter : string) : selection :=
  if len regularFiles =? 0 then
    if negb (String.eqb fileFilter "") then
      Refused (errorString ("no files matching '" +:+ fileFilter
                            +:+ "' found in the source directory"))
    else Refused (errorString "no files found in the source directory")
  else
    let regularFiles := sort_Slice newerFirst regularFiles in
    if nthNewest >? len regularFiles then
      Refused (errorString
        ("requested " +:+ itoa nthNewest +:+ "th newest file, but only "
         +:+ itoa (len regularFiles) +:+ " files available"))
    else
      let i := int_sub nthNewest 1 in
      if (0 <=? i) && (i <? len regularFiles) then
        match regularFiles !! Z.to_nat i with
        | Some fileToMove => Selected fileToMove
        | None => Crashed (IndexOutOfRange i (len regularFiles))
        end
      else Crashed (IndexOutOfRange i (len regularFiles)).

(** [moveFile], from the two paths to the end. *)
Definition relocateFile (sourceDir : string) (fileToMove : FileInfo)
    : M (option error) :=
  let sourcePath := filepath_Join sourceDir (Name fileToMove) in
  let destPath := filepath_Join "." (Name fileToMove) in
  let* r := os_Open sourcePath in
  match r with
  | inr err => ret (Some (Errorf_w "failed to open source file: " err))
  | inl sourceFile =>
  defer (File_Close sourceFile) (
  let* r := os_Create destPath in
  match r with
  | inr err => ret (Some (Errorf_w "failed to create destination file: " err))
  | inl destFile =>
  defer (File_Close destFile) (
  let* r := io_Copy destFile sourceFile in
  match snd r with
  | Some err => ret (Some (Errorf_w "failed to copy file: " err))
  | None =>
  let* r := File_Close sourceFile in
  match r with
  | Some err => ret (Some (Errorf_w "failed to close source file: " err))
  | None =>
  let* r := File_Close destFile in
  match r with
  | Some err => ret (Some (Errorf_w "failed to close destination file: " err))
  | None =>
  let* r := os_Remove sourcePath in
  match r with
  | Some err => ret (Some (Errorf_w "failed to remove original file: " err))
  | None =>
  let* _ := fmt_Printf (Name fileToMove +:+ nl) in
  ret None
  end end end end) end) end.

Definition moveFile (sourceDir : string) (regularFiles : list FileInfo)
    (nthNewest : Z) (fileFilter : string) : M (option error) :=
  match selectFile regularFiles nthNewest fileFilter with
  | Refused err => ret (Some err)
  | Crashed p => raise (Panicked p)
  | Selected fileToMove => relocateFile sourceDir fileToMove
  end.

Definition moveNthNewestFile (cfg : Flags) : M (option error) :=
  let* r := os_ReadDir (sourceDir cfg) in
  match r with
  | inr err => ret (Some (Errorf_w "failed to read source directory: " err))
  | inl entries =>
      match collectFiles entries (fileFilter cfg) [] with
      | inr err => ret (Some err)
      | inl regularFiles =>
          moveFile (sourceDir cfg) regularFiles (nthNewest cfg) (fileFilter cfg)
      end
  end.

(** The [switch] of [unarchiveFile]: the command for a file name, [None]
    for the [default] branch. *)
Definition archiveCommand (name : string) : option (list string) :=
  let ext := ToLower (filepath.Ext name) in
  if String.eqb ext ".zip" then Some ["unzip"; name]
  else if String.eqb ext ".gz" || String.eqb ext ".tgz"
       then Some ["tar"; "-xzf"; name]
  else if String.eqb ext ".tar" then Some ["tar"; "-xf"; name]
  else if String.eqb ext ".7z" then Some ["7z"; "x"; name]
  else None.

(** The loop of [unarchiveFile] and the return after it. *)
Fixpoint unarchiveEntries (entries : list DirEntry) : M (option error) :=
  match entries with
  | [] =>
      ret (Some (errorString
        "no recognized archive file found in the current directory"))
  | file :: rest =>
      match archiveCommand (entryName file) with
      | None => unarchiveEntries rest
      | Some argv =>
          let* r := cmd_Run argv in
          match r with
          | Some err =>
              ret (Some (Errorf_w
                ("failed to unarchive " +:+ entryName file +:+ ": ") err))
          | None =>
              let* r := os_Remove (entryName file) in
              match r with
              | Some err =>
                  ret (Some (Errorf_w
                    "failed to remove original archive file: " err))
              | None =>
                  let* _ := fmt_Printf ("Unarchived and removed: "
                                        +:+ entryName file +:+ nl) in
                  ret None
              end
          end
      end
  end.

Definition unarchiveFile : M (option error) :=
  let* r := os_ReadDir "." in
  match r with
  | inr err => ret (Some (Errorf_w "failed to read current directory: " err))
  | inl entries => unarchiveEntries entries
  end.

(** [rootCmd.Run]; cobra has checked [len(args) <= 1]. *)
Definition rootCmd_Run (cfg : Flags) (args : list string) : M unit :=
  let cfg := withArgs cfg args in
  let* r := moveNthNewestFile cfg in
  match r with
  | Some err =>
      let* _ := fmt_Fprintf_Stderr ("Error: " +:+ Error err +:+ nl) in
      os_Exit 1
  | None =>
      if unarchive cfg then
        let* r := unarchiveFile in
        match r with
        | Some err =>
            let* _ := fmt_Fprintf_Stderr
                        ("Error unarchiving: " +:+ Error err +:+ nl) in
            os_Exit 1
        | None => ret tt
        end
      else ret tt
  end.

(** The process: [Execute] calls [Run] and the process ends with status 0
    when that returns. *)
Definition Execute (cfg : Flags) (args : list string)
    : World -> abort * World :=
  fun w =>
    match rootCmd_Run cfg args w with
    | (inl _, w') => (Exited 0, w')
    | (inr ab, w') => (ab, w')
    end.

End Program.

(** ** The earlier revision, [src/cmd/root.go] *)

Module RootV1.
Section Program.
Context {rt : Runtime}.

(** Lines 88-99 and 101-116 are those of the current revision
    ([collectFiles], [selectFile]); the file is then renamed. *)
Definition moveNthNewestFile (cfg : Flags) : M (option error) :=
  let* r := os_ReadDir (sourceDir cfg) in
  match r with
  | inr err => ret (Some (Errorf_w "failed to read source directory: " err))
  | inl entries =>
      match collectFiles entries (fileFilter cfg) [] with
      | inr err => ret (Some err)
      | inl regularFiles =>
          match selectFile regularFiles (nthNewest cfg) (fileFilter cfg) with
          | Refused err => ret (Some err)
          | Crashed p => raise (Panicked p)
          | Selected fileToMove =>
              let sourcePath :=
                filepath_Join (sourceDir cfg) (Name fileToMove) in
              let destPath := filepath_Join "." (Name fileToMove) in
              let* r := os_Rename sourcePath destPath in
              match r with
              | Some err => ret (Some (Errorf_w "failed to move file: " err))
              | None =>
                  let* _ := fmt_Printf ("Moved " +:+ Name fileToMove
                                        +:+ " to current directory" +:+ nl) in
                  ret None
              end
          end
      end
  end.

Definition rootCmd_Run (cfg : Flags) (args : list string) : M unit :=
  let cfg := withArgs cfg args in
  let* r := moveNthNewestFile cfg in
  match r with
  | Some err =>
      let* _ := fmt_Fprintf_Stderr ("Error: " +:+ Error err +:+ nl) in
      os_Exit 1
  | None => ret tt
  end.

End Program.
End RootV1.

(** ** Reference definitions *)

(** Modelled from the spec: "ties broken by original enumeration order
    (stable sort)".  Insertion from the right; an element stays in front of
    every later element that [less] does not put before it. *)
Fixpoint stable_insert {A} (less : A -> A -> bool) (x : A) (l : list A) : list A :=
  match l with
  | [] => [x]
  | y :: l' => if less y x then y :: stable_insert less x l' else x :: l
  end.

Fixpoint stable_sort {A} (less : A -> A -> bool) (l : list A) : list A :=
  match l with
  | [] => []
  | x :: l' => stable_insert less x (stable_sort less l')
  end.

(** Neither is before the other. *)
Definition tied {A} (less : A -> A -> bool) (x y : A) : bool :=
  negb (less x y) && negb (less y x).

(** The selector's two errors, by the spec's names. *)
Definition NotFound (fileFilter : string) : error :=
  if negb (String.eqb fileFilter "") then
    errorString ("no files matching '" +:+ fileFilter
                 +:+ "' found in the source directory")
  else errorString "no files found in the source directory".

Definition OutOfRange (rank count : Z) : error :=
  errorString ("requested " +:+ itoa rank +:+ "th newest file, but only "
               +:+ itoa count +:+ " files available").

Definition NoArchiveFound : error :=
  errorString "no recognized archive file found in the current directory".



(** Whether an entry passes the filter of [moveNthNewestFile]. *)
Definition retained {rt : Runtime} (fileFilter : string) (file : DirEntry) : bool :=
  negb (IsDir file)
  && (String.eqb fileFilter ""
      || strings.Contains (ToLower (entryName file)) (ToLower fileFilter)).

Definition infoOf (file : DirEntry) : FileInfo :=
  mkFileInfo (entryName file) (entryModTime file).

(** ** Vocabulary of the statements *)

(** Newest first, as a relation on the times. *)
Definition descending : list Z -> Prop := StronglySorted (fun t u => u <= t).

(** Entries whose [Info()] the loop asks for and gets. *)
Definition readable (file : DirEntry) : Prop :=
  IsDir file = false -> InfoErr file = None.

(** The file [moveNthNewestFile] settles on in [w]. *)
Definition chosen {rt : Runtime} (cfg : Flags) (w : World)
    (fileToMove : FileInfo) : Prop :=
  exists entries regularFiles,
    readDir (sourceDir cfg) w = inl entries
    /\ collectFiles entries (fileFilter cfg) [] = inl regularFiles
    /\ selectFile regularFiles (nthNewest cfg) (fileFilter cfg)
       = Selected fileToMove.

(** The calls of a relocation that goes through: open, create, copy, the
    two closes, remove, and the two deferred closes. *)
Definition relocation_calls (sourcePath destPath : string) : list call :=
  [CallOpen sourcePath; CallCreate destPath; CallCopy destPath sourcePath;
   CallClose sourcePath; CallClose destPath; CallRemove sourcePath;
   CallClose destPath; CallClose sourcePath].



(** Entries the [switch] of [unarchiveFile] passes over. *)
Definition unrecognized {rt : Runtime} (file : DirEntry) : Prop :=
  archiveCommand (entryName file) = None.

(** The world once the child has run. *)
Definition after_child {rt : Runtime} (argv : list string) (w : World) : World :=
  mkWorld (child_files (child argv w))
          (stdout w ++ child_stdout (child argv w))
          (stderr w ++ child_stderr (child argv w))
          (calls w ++ [CallRun argv]).

(** What [os.Remove] answers, by cause. *)
Definition remove_error {rt : Runtime} (path : string) (w : World)
    : option error :=
  match fault (CallRemove path) w with
  | Some err => Some err
  | None =>
      match files w !! path with
      | Some _ => None
      | None =>
          Some (errorString
            ("remove " +:+ path +:+ ": no such file or directory"))
      end
  end.

(** ** Four claims as they are worded *)




(** C9, for the output: after a run that ends with status 0 the standard
    output has received the moved file's name and nothing else. *)
Definition only_filename_on_stdout : Prop :=
  forall (R : Runtime) (laws : RuntimeLaws R) cfg args w w',
    Execute cfg args w = (Exited 0, w') ->
    exists moved, stdout w' = stdout w ++ [moved +:+ nl].

(** ** Runtimes and inputs to run the program on *)

(** [sort.Slice] by insertion, leaving ties in enumeration order, or, with
    [reverse_ties], in the opposite order. *)
Definition tieSort (reverse_ties : bool) (less : FileInfo -> FileInfo -> bool)
    (l : list FileInfo) : list FileInfo :=
  stable_sort less (if reverse_ties then reverse l else l).

(** [filepath.Join(dir, name)] for a clean relative or absolute directory
    other than the root and a plain file name. *)
Definition joinPath (dir name : string) : string :=
  if String.eqb dir "." || String.eqb dir "" then name
  else dir +:+ "/" +:+ name.

(** A runtime given by its answers. *)
Definition scriptedRuntime (reverse_ties : bool)
    (listing : string -> list DirEntry + error)
    (faults : call -> option error) (written : nat)
    (program : list string -> World -> ChildResult) : Runtime :=
  {| unicode_ToLower := fun s => s;
     sort_Slice := tieSort reverse_ties;
     filepath_Join := joinPath;
     readDir := fun dir _ => listing dir;
     fault := fun c _ => faults c;
     short_write := fun _ => written;
     child := program |}.

(** A child process that succeeds and touches nothing. *)
Definition idleChild (argv : list string) (w : World) : ChildResult :=
  mkChildResult (files w) [] [] None.

(** No faults, a stable sort, one listing for every directory. *)
Definition calmRuntime (entries : list DirEntry) : Runtime :=
  scriptedRuntime false (fun _ => inl entries) (fun _ => None) 0 idleChild.

(** A disk that fills up during the copy. *)
Definition diskFull (c : call) : option error :=
  match c with
  | CallCopy _ _ => Some (errorString "no space left on device")
  | _ => None
  end.


Definition threeBytes : list Byte.byte := [Byte.x67; Byte.x6f; Byte.x21].

(** The listing of the spec's scenario, in the order [os.ReadDir] gives it
    (by file name). *)
Definition scenario (ta tb tc : Z) : list DirEntry :=
  [ mkDirEntry "a.txt" false ta None;
    mkDirEntry "b.log" false tb None;
    mkDirEntry "c.txt" false tc None ].

Definition notesAndArchive : list DirEntry :=
  [ mkDirEntry "Notes.txt" false 4 None;
    mkDirEntry "archive.ZIP" false 5 None ].

(** ** The rest of the file: [init] *)

(** [os.Getenv]: the value of the variable, empty when it is not set. *)
Definition os_Getenv (env : gmap string string) (key : string) : string :=
  default "" (env !! key).

(** [init], both revisions: the flags are registered with their defaults
    (which stores the default in the bound variable), then the source
    directory is taken from the environment.  [fileFilter] starts as Go's
    zero value. *)
Definition init {rt : Runtime} (env : gmap string string) : Flags :=
  let sourceDir := "" in
  let nthNewest := 1 in
  let unarchive := false in
  let sourceDir :=
    if String.eqb sourceDir "" then
      let sourceDir := os_Getenv env "GETNEW_SOURCE_DIR" in
      if String.eqb sourceDir "" then
        filepath_Join (os_Getenv env "HOME") "Downloads"
      else sourceDir
    else sourceDir in
  mkFlags sourceDir nthNewest "" unarchive.

(** ** Vocabulary of the further properties *)

(** A file name with a dot in it. *)
Fixpoint hasDot (s : string) : bool :=
  match s with
  | EmptyString => false
  | String c s' => Ascii.eqb c "." || hasDot s'
  end.

(** The candidates strictly newer than [f], and those at least as new. *)
Definition strictly_newer (f : FileInfo) (l : list FileInfo) : list FileInfo :=
  filter (fun g => ModTime f < ModTime g) l.

Definition at_least_as_new (f : FileInfo) (l : list FileInfo) : list FileInfo :=
  filter (fun g => ModTime f <= ModTime g) l.

(** * Proofs *)

(** ** Sorting *)

Lemma newerFirst_ok : less_ok newerFirst.
Proof.
  split; unfold newerFirst, After; intros; rewrite ?Z.ltb_lt, ?Z.ltb_ge in *; lia.
Qed.

Section StableSort.
Context {A : Type} (less : A -> A -> bool) (Hless : less_ok less).

Lemma stable_insert_Permutation x l : stable_insert less x l ≡ₚ x :: l.
Proof.
  induction l as [|y l IH]; simpl; [done|].
  destruct (less y x); [|done].
  rewrite IH. apply Permutation_swap.
Qed.

Lemma stable_sort_Permutation l : stable_sort less l ≡ₚ l.
Proof.
  induction l as [|x l IH]; simpl; [done|].
  by rewrite stable_insert_Permutation, IH.
Qed.

Lemma stable_insert_sorted x l :
  sorted_by less l -> sorted_by less (stable_insert less x l).
Proof.
  unfold sorted_by. induction 1 as [|y l Hl IH Hy]; simpl.
  - repeat constructor.
  - destruct (less y x) eqn:Hyx.
    + constructor; [done|].
      rewrite Forall_forall in Hy |- *. intros z Hz.
      apply (elem_of_Permutation_proper _ _ _ (stable_insert_Permutation x l)) in Hz.
      apply elem_of_cons in Hz as [->|Hz]; [|by apply Hy].
      by apply (less_asym less Hless).
    + constructor; [by constructor|].
      constructor; [done|].
      rewrite Forall_forall in Hy |- *. intros z Hz.
      eapply (less_negtrans less Hless); [by apply Hy|done].
Qed.

Lemma stable_sort_sorted l : sorted_by less (stable_sort less l).
Proof.
  induction l as [|x l IH]; simpl; [constructor|].
  by apply stable_insert_sorted.
Qed.

Lemma tied_trans x y z :
  tied less x y = true -> tied less y z = true -> tied less x z = true.
Proof.
  unfold tied. rewrite !andb_true_iff, !negb_true_iff.
  intros [? ?] [? ?]. split; by eapply (less_negtrans less Hless).
Qed.

Lemma tied_sym x y : tied less x y = tied less y x.
Proof. unfold tied. apply andb_comm. Qed.

(** Stability: among elements tied with [z], the original order stays. *)
Lemma stable_insert_filter z x l :
  filter (fun y => tied less z y = true) (stable_insert less x l)
  = filter (fun y => tied less z y = true) (x :: l).
Proof.
  induction l as [|y l IH]; simpl; [done|].
  destruct (less y x) eqn:Hyx; [|done].
  rewrite filter_cons, IH, !filter_cons.
  destruct (decide (tied less z y = true)) as [Hy|Hy];
    destruct (decide (tied less z x = true)) as [Hx|Hx]; try done.
  exfalso. rewrite tied_sym in Hy.
  pose proof (tied_trans _ _ _ Hy Hx) as Hyx'.
  unfold tied in Hyx'. rewrite Hyx in Hyx'. done.
Qed.

Lemma stable_sort_stable z l :
  filter (fun y => tied less z y = true) (stable_sort less l)
  = filter (fun y => tied less z y = true) l.
Proof.
  induction l as [|x l IH]; simpl; [done|].
  by rewrite stable_insert_filter, !filter_cons, IH.
Qed.

End StableSort.

Lemma sorted_by_newerFirst l :
  sorted_by newerFirst l <-> descending (ModTime <$> l).
Proof.
  unfold sorted_by, descending. split.
  - induction 1 as [|x l Hl IH Hx]; simpl; constructor; [done|].
    rewrite Forall_fmap. eapply Forall_impl; [exact Hx|].
    intros y. unfold newerFirst, After; simpl. rewrite Z.ltb_ge. done.
  - induction l as [|x l IH]; simpl; [constructor|].
    inversion_clear 1 as [|? ? Hl Hx]. constructor; [by apply IH|].
    rewrite Forall_fmap in Hx. eapply Forall_impl; [exact Hx|].
    intros y. unfold newerFirst, After; simpl. rewrite Z.ltb_ge. done.
Qed.

Lemma descending_unique (l1 l2 : list Z) :
  descending l1 -> descending l2 -> l1 ≡ₚ l2 -> l1 = l2.
Proof.
  intros H1 H2 HP.
  eapply (StronglySorted_unique_strong (fun t u : Z => u <= t)); eauto.
  intros; lia.
Qed.

(** Two orderings of one list that agree on the times are equal when no
    two files share a time. *)
Lemma same_times_same_files (l1 l2 : list FileInfo) :
  l1 ≡ₚ l2 -> NoDup (ModTime <$> l1) ->
  ModTime <$> l1 = ModTime <$> l2 -> l1 = l2.
Proof.
  revert l2. induction l1 as [|x l1 IH]; intros l2 HP Hnd Heq.
  - by apply Permutation_nil_l in HP.
  - destruct l2 as [|y l2]; [by apply Permutation_nil_r in HP|].
    simpl in Heq. injection Heq as Hxy Heq.
    apply NoDup_cons in Hnd as [Hx Hnd].
    assert (x = y) as ->.
    { assert (y ∈ x :: l1) as Hy by (rewrite HP; left).
      apply elem_of_cons in Hy as [->|Hy]; [done|].
      exfalso. apply Hx. rewrite Hxy. by apply list_elem_of_fmap_2. }
    f_equal. apply IH; [by eapply Permutation_cons_inv|done|done].
Qed.

Section SortSlice.
Context {rt : Runtime} {laws : RuntimeLaws rt}.

Lemma sort_Slice_times l :
  ModTime <$> sort_Slice newerFirst l = ModTime <$> stable_sort newerFirst l.
Proof.
  apply descending_unique.
  - apply sorted_by_newerFirst, sort_Slice_sorted, newerFirst_ok.
  - apply sorted_by_newerFirst, stable_sort_sorted, newerFirst_ok.
  - apply fmap_Permutation.
    by rewrite sort_Slice_Permutation, stable_sort_Permutation.
Qed.

Lemma sort_Slice_distinct l :
  NoDup (ModTime <$> l) ->
  sort_Slice newerFirst l = stable_sort newerFirst l.
Proof.
  intros Hnd. apply same_times_same_files.
  - by rewrite sort_Slice_Permutation, stable_sort_Permutation.
  - by rewrite sort_Slice_Permutation.
  - apply sort_Slice_times.
Qed.

Lemma sort_Slice_len l : len (sort_Slice newerFirst l) = len l.
Proof. unfold len. by rewrite sort_Slice_Permutation. Qed.

End SortSlice.

(** ** The scripted runtimes are lawful *)

Lemma tieSort_Permutation b less l : tieSort b less l ≡ₚ l.
Proof.
  unfold tieSort. rewrite stable_sort_Permutation.
  destruct b; [apply reverse_Permutation|done].
Qed.

Lemma tieSort_sorted b less l : less_ok less -> sorted_by less (tieSort b less l).
Proof. intros. by apply stable_sort_sorted. Qed.

#[global] Instance scriptedRuntime_laws reverse_ties listing faults written program :
  RuntimeLaws (scriptedRuntime reverse_ties listing faults written program).
Proof.
  split; [apply tieSort_Permutation|apply tieSort_sorted].
Qed.

#[global] Instance calmRuntime_laws entries : RuntimeLaws (calmRuntime entries).
Proof. apply scriptedRuntime_laws. Qed.

(** ** Strings *)

Lemma append_String c s t : String c s +:+ t = String c (s +:+ t).
Proof. reflexivity. Qed.

Lemma append_EmptyString s : "" +:+ s = s.
Proof. reflexivity. Qed.

Lemma HasPrefix_spec s p :
  strings.HasPrefix s p = true <-> exists post, s = p +:+ post.
Proof.
  revert s. induction p as [|c p IH]; intros s; simpl.
  - split; [by exists s|done].
  - setoid_rewrite append_String. destruct s as [|d s]; simpl.
    + split; [done|by intros [? ?]].
    + destruct (Ascii.eqb_spec d c) as [->|Hne].
      * rewrite IH. split; intros [post Hp]; exists post; congruence.
      * split; [done|]. intros [post Hp]. congruence.
Qed.

Lemma Contains_spec s substr :
  strings.Contains s substr = true
  <-> exists pre post, s = pre +:+ substr +:+ post.
Proof.
  induction s as [|c s IH]; simpl.
  - rewrite orb_false_r, HasPrefix_spec. split.
    + intros [post Hp]. by exists "", post.
    + intros ([|? ?] & post & Hp); [by exists post|done].
  - rewrite orb_true_iff, HasPrefix_spec, IH. split.
    + intros [[post Hp]|(pre & post & Hp)].
      * by exists "", post.
      * exists (String c pre), post. rewrite append_String. by rewrite Hp.
    + intros ([|d pre] & post & Hp).
      * left. by exists post.
      * right. exists pre, post. rewrite append_String in Hp. congruence.
Qed.

Lemma Contains_empty s : strings.Contains s "" = true.
Proof. apply Contains_spec. by exists "", s. Qed.

(** ** The candidates *)

Section Candidates.
Context {rt : Runtime}.

Lemma collectFiles_app entries fileFilter acc :
  collectFiles entries fileFilter acc
  = match collectFiles entries fileFilter [] with
    | inl l => inl (acc ++ l)
    | inr err => inr err
    end.
Proof.
  revert acc. induction entries as [|file rest IH]; intros acc; simpl.
  - by rewrite app_nil_r.
  - destruct (IsDir file); simpl; [apply IH|].
    destruct (Info file) as [info|err]; [|done].
    destruct (_ || _).
    + rewrite (IH (acc ++ [info])), (IH [info]).
      destruct (collectFiles rest fileFilter []); [|done].
      by rewrite <- app_assoc.
    + apply IH.
Qed.

Lemma collectFiles_inl entries fileFilter regularFiles :
  collectFiles entries fileFilter [] = inl regularFiles
  <-> Forall readable entries
      /\ regularFiles
         = infoOf <$> filter (fun e => retained fileFilter e = true) entries.
Proof.
  revert regularFiles.
  induction entries as [|file rest IH]; intros regularFiles; simpl.
  - split; [intros [= <-]; by split|intros [_ ->]; done].
  - rewrite Forall_cons. unfold readable at 1, Info.
    destruct (IsDir file) eqn:Hdir; simpl.
    { rewrite filter_cons_False
        by (unfold retained; rewrite Hdir; simpl; congruence).
      rewrite IH. intuition congruence. }
    destruct (InfoErr file) as [err|]; simpl.
    { split; [done|]. intros [[Hr _] _]. by specialize (Hr eq_refl). }
    destruct (_ || _) eqn:Hkeep; simpl.
    + rewrite filter_cons_True by (unfold retained; by rewrite Hdir, Hkeep).
      rewrite collectFiles_app.
      destruct (collectFiles rest fileFilter []) as [l|err] eqn:Hc.
      * destruct (IH l) as [[Hrest ->] _]; [done|]. simpl.
        split; [intros [= <-]; by split|intros [_ ->]; done].
      * split; [done|]. intros [[_ Hrest] Heq].
        destruct (IH (infoOf <$> filter (fun e => retained fileFilter e = true) rest))
          as [_ Hback].
        by specialize (Hback (conj Hrest eq_refl)).
    + rewrite filter_cons_False
        by (unfold retained; rewrite Hdir, Hkeep; simpl; congruence).
      rewrite IH. intuition congruence.
Qed.

End Candidates.

(** C5. When every [Info()] the loop asks for succeeds, the candidates are
    the descriptions, in listing order, of exactly the entries that are not
    directories and whose lower-cased name contains the lower-cased filter;
    with an empty filter these are all the entries that are not directories;
    no directory is a candidate. *)
Theorem candidates_are_matching_files {rt : Runtime} entries fileFilter :
  Forall readable entries ->
  exists regularFiles,
    collectFiles entries fileFilter [] = inl regularFiles
    /\ regularFiles
       = infoOf <$> filter (fun e => retained fileFilter e = true) entries
    /\ (forall e,
          retained fileFilter e = true
          <-> IsDir e = false
              /\ exists pre post,
                   ToLower (entryName e) = pre +:+ ToLower fileFilter +:+ post)
    /\ (fileFilter = "" ->
        regularFiles = infoOf <$> filter (fun e => IsDir e = false) entries)
    /\ (forall f,
          f ∈ regularFiles
          <-> exists e, e ∈ entries /\ IsDir e = false /\ infoOf e = f
                        /\ strings.Contains (ToLower (entryName e))
                             (ToLower fileFilter) = true).
Proof.
  intros Hread.
  assert (Hkeep : forall e,
    retained fileFilter e = true
    <-> IsDir e = false
        /\ strings.Contains (ToLower (entryName e)) (ToLower fileFilter) = true).
  { intros e. unfold retained.
    rewrite andb_true_iff, negb_true_iff, orb_true_iff.
    split; [|tauto]. intros [Hd [Hf|Hc]]; [|done]. split; [done|].
    apply String.eqb_eq in Hf as ->. apply Contains_empty. }
  eexists. split; [by apply collectFiles_inl|]. split; [done|].
  split; [|split].
  - intros e. by rewrite Hkeep, Contains_spec.
  - intros ->. f_equal. apply list_filter_iff. intros e.
    rewrite Hkeep. split; [tauto|]. intros Hd. split; [done|].
    apply Contains_empty.
  - intros f. rewrite list_elem_of_fmap. setoid_rewrite list_elem_of_filter.
    setoid_rewrite Hkeep.
    split; [intros (e & -> & [Hd Hc] & He)|intros (e & He & Hd & <- & Hc)];
      exists e; done.
Qed.

Lemma candidates_are_matching_files_witness :
  collectFiles (rt := calmRuntime [])
    (mkDirEntry "Txt-box" true 9 None :: scenario 1 3 2) "TXT" []
  = inl [mkFileInfo "a.txt" 1; mkFileInfo "c.txt" 2].
Proof.
  destruct (@candidates_are_matching_files (calmRuntime [])
              (mkDirEntry "Txt-box" true 9 None :: scenario 1 3 2) "TXT")
    as (regularFiles & Hcollect & Heq & _).
  - repeat (constructor; [intros _; reflexivity|]). constructor.
  - rewrite Hcollect, Heq. reflexivity.
Defined.

(** ** Selection *)

Lemma wrap_int_id z : is_int z -> wrap_int z = z.
Proof.
  unfold is_int, wrap_int, min_int, max_int. intros Hz.
  rewrite Z.mod_small; lia.
Qed.

Lemma len_nonneg {A} (l : list A) : 0 <= len l.
Proof. unfold len. lia. Qed.

Lemma len_zero {A} (l : list A) : len l = 0 <-> l = [].
Proof. unfold len. destruct l; simpl; split; (done || lia). Qed.

Section Selection.
Context {rt : Runtime} {laws : RuntimeLaws rt}.

(** With at least one candidate and a rank in range, the file at
    [nthNewest - 1] of the sorted slice is selected. *)
Lemma selectFile_in_range regularFiles nthNewest fileFilter :
  regularFiles <> [] -> is_int nthNewest ->
  1 <= nthNewest <= len regularFiles ->
  exists fileToMove,
    sort_Slice newerFirst regularFiles !! Z.to_nat (nthNewest - 1)
      = Some fileToMove
    /\ selectFile regularFiles nthNewest fileFilter = Selected fileToMove.
Proof.
  intros Hne Hint Hrank. unfold selectFile.
  destruct (Z.eqb_spec (len regularFiles) 0) as [H0|_];
    [by apply len_zero in H0|].
  rewrite sort_Slice_len.
  destruct (Z.gtb_spec nthNewest (len regularFiles)); [lia|].
  unfold int_sub. rewrite wrap_int_id by (unfold is_int, min_int, max_int in *; lia).
  destruct (Z.leb_spec 0 (nthNewest - 1)); [|lia].
  destruct (Z.ltb_spec (nthNewest - 1) (len regularFiles)); [|lia]. simpl.
  destruct (lookup_lt_is_Some_2 (sort_Slice newerFirst regularFiles)
              (Z.to_nat (nthNewest - 1))) as [f Hf].
  { rewrite sort_Slice_Permutation. unfold len in *. lia. }
  exists f. by rewrite Hf.
Qed.



Lemma selectFile_nonpositive regularFiles nthNewest fileFilter :
  regularFiles <> [] -> is_int nthNewest -> is_int (len regularFiles) ->
  nthNewest <= 0 ->
  selectFile regularFiles nthNewest fileFilter
  = Crashed (IndexOutOfRange (int_sub nthNewest 1) (len regularFiles)).
Proof.
  intros Hne Hint Hlen Hrank. unfold selectFile.
  destruct (Z.eqb_spec (len regularFiles) 0) as [H0|_];
    [by apply len_zero in H0|].
  rewrite sort_Slice_len.
  pose proof (len_nonneg regularFiles).
  destruct (Z.gtb_spec nthNewest (len regularFiles)); [lia|].
  assert (int_sub nthNewest 1 < 0 \/ len regularFiles <= int_sub nthNewest 1)
    as Hidx.
  { unfold is_int, min_int, max_int in *.
    destruct (decide (nthNewest = - 2 ^ 63)) as [->|].
    - right. unfold int_sub, wrap_int. 
      change ((- 2 ^ 63 - 1 + 2 ^ 63) mod 2 ^ 64 - 2 ^ 63) with (2 ^ 63 - 1).
      lia.
    - left. unfold int_sub. rewrite wrap_int_id; unfold is_int, min_int, max_int; lia. }
  destruct (Z.leb_spec 0 (int_sub nthNewest 1)); simpl; [|done].
  destruct (Z.ltb_spec (int_sub nthNewest 1) (len regularFiles)); [lia|done].
Qed.

End Selection.

(** Settle the comparisons of a sort over times ordered by hypothesis. *)
Ltac decide_ltb :=
  repeat match goal with
  | |- context [?x <? ?y] =>
      first [ rewrite (proj2 (Z.ltb_lt x y)) by lia
            | rewrite (proj2 (Z.ltb_ge x y)) by lia ]; simpl
  end.

Ltac distinct_times :=
  rewrite ?NoDup_cons, ?not_elem_of_cons;
  repeat split; try lia; try apply not_elem_of_nil; try apply NoDup_nil_2.

(** C1. With a non-empty candidate list and [1 <= rank <= count], the
    selector returns the element at index [rank - 1] of the candidates in
    descending order of modification time, and [moveFile] relocates that
    file.  In the scenario [a.txt] (oldest), [b.log] (newest), [c.txt]
    (middle), rank 2 without a filter and rank 1 with the filter "txt" both
    select [c.txt]. *)
Theorem selector_returns_rank {rt : Runtime} {laws : RuntimeLaws rt} :
  (forall regularFiles nthNewest fileFilter,
     regularFiles <> [] -> is_int nthNewest ->
     1 <= nthNewest <= len regularFiles ->
     exists ordered fileToMove,
       ordered ≡ₚ regularFiles
       /\ descending (ModTime <$> ordered)
       /\ ordered !! Z.to_nat (nthNewest - 1) = Some fileToMove
       /\ selectFile regularFiles nthNewest fileFilter = Selected fileToMove
       /\ forall sourceDir,
            moveFile sourceDir regularFiles nthNewest fileFilter
            = relocateFile sourceDir fileToMove)
  /\ (forall ta tb tc, ta < tc < tb ->
        (exists regularFiles,
           collectFiles (scenario ta tb tc) "" [] = inl regularFiles
           /\ selectFile regularFiles 2 "" = Selected (mkFileInfo "c.txt" tc))
        /\ (exists regularFiles,
              collectFiles (scenario ta tb tc) "txt" [] = inl regularFiles
              /\ selectFile regularFiles 1 "txt"
                 = Selected (mkFileInfo "c.txt" tc))).
Proof.
  split.
  - intros regularFiles nthNewest fileFilter Hne Hint Hrank.
    destruct (selectFile_in_range regularFiles nthNewest fileFilter)
      as (f & Hf & Hsel); [done..|].
    exists (sort_Slice newerFirst regularFiles), f.
    split; [apply sort_Slice_Permutation|].
    split; [apply sorted_by_newerFirst, sort_Slice_sorted, newerFirst_ok|].
    split; [done|]. split; [done|].
    intros sourceDir. unfold moveFile. by rewrite Hsel.
  - intros ta tb tc Ht.
    set (a := mkFileInfo "a.txt" ta). set (b := mkFileInfo "b.log" tb).
    set (c := mkFileInfo "c.txt" tc).
    split.
    + exists [a; b; c]. split; [reflexivity|].
      unfold selectFile. rewrite sort_Slice_len.
      rewrite sort_Slice_distinct.
      2:{ simpl. distinct_times. }
      replace (stable_sort newerFirst [a; b; c]) with [b; c; a]; [reflexivity|].
      unfold newerFirst, After. simpl. decide_ltb. reflexivity.
    + exists [a; c]. split; [reflexivity|].
      unfold selectFile. rewrite sort_Slice_len.
      rewrite sort_Slice_distinct.
      2:{ simpl. distinct_times. }
      replace (stable_sort newerFirst [a; c]) with [c; a]; [reflexivity|].
      unfold newerFirst, After. simpl. decide_ltb. reflexivity.
Qed.

Lemma selector_returns_rank_witness :
  (exists fileToMove,
     selectFile (rt := calmRuntime [])
       [mkFileInfo "a.txt" 1; mkFileInfo "b.log" 3; mkFileInfo "c.txt" 2] 2 ""
     = Selected fileToMove)
  /\ (exists regularFiles,
        collectFiles (rt := calmRuntime []) (scenario 1 3 2) "txt" []
          = inl regularFiles
        /\ selectFile (rt := calmRuntime []) regularFiles 1 "txt"
           = Selected (mkFileInfo "c.txt" 2)).
Proof.
  destruct (@selector_returns_rank (calmRuntime []) _) as [Hgen Hex].
  split.
  - destruct (Hgen [mkFileInfo "a.txt" 1; mkFileInfo "b.log" 3;
                    mkFileInfo "c.txt" 2] 2 "")
      as (ordered & f & _ & _ & _ & Hsel & _).
    + discriminate.
    + unfold is_int, min_int, max_int. lia.
    + unfold len. simpl. lia.
    + exists f. exact Hsel.
  - apply (Hex 1 3 2). lia.
Defined.




(** ** The selector's errors *)






(** ** A rank that is not positive *)

(** C10. With at least one candidate and a rank [<= 0] no [OutOfRange]
    (nor any other) error is returned: the guard only tests
    [rank > count], the slice is indexed at [rank - 1], which is out of
    bounds ([-1] for rank 0), and the call panics before anything is
    opened.  Both revisions behave so. *)
Theorem nonpositive_rank_panics {rt : Runtime} {laws : RuntimeLaws rt} regularFiles nthNewest fileFilter :
  regularFiles <> [] -> is_int nthNewest -> is_int (len regularFiles) ->
  nthNewest <= 0 ->
  let i := int_sub nthNewest 1 in
  ~ (0 <= i < len regularFiles)
  /\ (nthNewest = 0 -> i = -1)
  /\ selectFile regularFiles nthNewest fileFilter
     = Crashed (IndexOutOfRange i (len regularFiles))
  /\ (forall err, selectFile regularFiles nthNewest fileFilter <> Refused err)
  /\ (forall sourceDir w,
        moveFile sourceDir regularFiles nthNewest fileFilter w
        = (inr (Panicked (IndexOutOfRange i (len regularFiles))), w))
  /\ (forall sourceDir unarchive entries w,
        readDir sourceDir w = inl entries ->
        collectFiles entries fileFilter [] = inl regularFiles ->
        let cfg := mkFlags sourceDir nthNewest fileFilter unarchive in
        let crash := inr (Panicked (IndexOutOfRange i (len regularFiles))) in
        moveNthNewestFile cfg w = (crash, record (CallReadDir sourceDir) w)
        /\ RootV1.moveNthNewestFile cfg w
           = (crash, record (CallReadDir sourceDir) w)).
Proof.
  intros Hne Hint Hlen Hrank i.
  pose proof (selectFile_nonpositive regularFiles nthNewest fileFilter
                Hne Hint Hlen Hrank) as Hsel. fold i in Hsel.
  split; [|split; [|split; [|split; [|split]]]].
  - subst i. unfold is_int, min_int, max_int in *.
    destruct (decide (nthNewest = - 2 ^ 63)) as [->|].
    + unfold int_sub, wrap_int.
      change ((- 2 ^ 63 - 1 + 2 ^ 63) mod 2 ^ 64 - 2 ^ 63) with (2 ^ 63 - 1).
      lia.
    + unfold int_sub. rewrite wrap_int_id; unfold is_int, min_int, max_int; lia.
  - intros ->. reflexivity.
  - done.
  - intros err. by rewrite Hsel.
  - intros sourceDir w. unfold moveFile. by rewrite Hsel.
  - intros sourceDir unarchive entries w Hdir Hcollect cfg crash.
    unfold moveNthNewestFile, RootV1.moveNthNewestFile, os_ReadDir, bind,
      moveFile. simpl.
    rewrite Hdir, Hcollect, Hsel. done.
Qed.

Lemma nonpositive_rank_panics_witness :
  selectFile (rt := calmRuntime []) [mkFileInfo "a.txt" 1] 0 ""
  = Crashed (IndexOutOfRange (-1) 1).
Proof.
  destruct (@nonpositive_rank_panics (calmRuntime []) _
              [mkFileInfo "a.txt" 1] 0 "") as (_ & _ & Hsel & _).
  - discriminate.
  - unfold is_int, min_int, max_int. lia.
  - unfold is_int, min_int, max_int, len. simpl. lia.
  - lia.
  - exact Hsel.
Defined.

(** ** Relocation *)

(** Unfold one run of [relocateFile] into its branches. *)
Ltac run_relocate :=
  unfold relocateFile, bind, defer, ret, os_Open, os_Create, io_Copy,
    File_Close, os_Remove, fmt_Printf, record, with_files;
  cbn [fst snd files stdout stderr calls];
  repeat case_match; simplify_eq/=.

Section Relocation.
Context {rt : Runtime}.

Lemma relocateFile_returns sourceDir fileToMove w :
  exists r w', relocateFile sourceDir fileToMove w = (inl r, w').
Proof. run_relocate; eauto. Qed.

Lemma relocateFile_success sourceDir fileToMove w w' :
  relocateFile sourceDir fileToMove w = (inl None, w') ->
  let sourcePath := filepath_Join sourceDir (Name fileToMove) in
  let destPath := filepath_Join "." (Name fileToMove) in
  exists content,
    files w !! sourcePath = Some content
    /\ files w' !! sourcePath = None
    /\ (sourcePath <> destPath -> files w' !! destPath = Some content)
    /\ (sourcePath = destPath -> files w' !! destPath = None)
    /\ (forall p, p <> sourcePath -> p <> destPath ->
          files w' !! p = files w !! p)
    /\ calls w' = calls w ++ relocation_calls sourcePath destPath
    /\ stdout w' = stdout w ++ [Name fileToMove +:+ nl]
    /\ stderr w' = stderr w.
Proof.
  intros Hrun sourcePath destPath. subst sourcePath destPath.
  revert Hrun. run_relocate; intros Hrun; simplify_eq/=.
  set (sourcePath := filepath_Join sourceDir (Name fileToMove)) in *.
  set (destPath := filepath_Join "." (Name fileToMove)) in *.
  eexists. split; [done|].
  split; [apply lookup_delete_eq|].
  split; [|split; [|split; [|split; [|done]]]].
  - intros Hne. rewrite lookup_delete_ne, lookup_insert_eq by done.
    rewrite lookup_insert_ne by done.
    match goal with H : files w !! _ = Some _ |- _ => by rewrite H end.
  - intros <-. apply lookup_delete_eq.
  - intros p Hs Hd. by rewrite lookup_delete_ne, !lookup_insert_ne.
  - unfold relocation_calls. by rewrite <- !app_assoc.
Qed.

End Relocation.



(** When the source directory is the current one the two paths are one
    path: the file is truncated by [os.Create], copied empty, and removed. *)
Lemma relocateFile_same_directory {rt : Runtime} fileToMove w w' :
  relocateFile "." fileToMove w = (inl None, w') ->
  is_Some (files w !! filepath_Join "." (Name fileToMove))
  /\ files w' !! filepath_Join "." (Name fileToMove) = None.
Proof.
  intros Hrun.
  destruct (relocateFile_success "." fileToMove w w' Hrun)
    as (content & Hsrc & _ & _ & Hsame & _).
  split; [by eexists|by apply Hsame].
Qed.

(** C2, at [getnew --source .] in a directory that holds the file [x]: the
    run succeeds, prints [x], and [x] exists nowhere afterwards; no copy of
    its bytes is left at the destination. *)
Theorem move_within_current_directory_loses_file :
  let rt := calmRuntime [mkDirEntry "x" false 1 None] in
  let w := mkWorld {[ "x" := threeBytes ]} [] [] [] in
  exists w',
    Execute (mkFlags "." 1 "" false) [] w = (Exited 0, w')
    /\ files w !! "x" = Some threeBytes
    /\ files w' !! "x" = None
    /\ files w' = ∅
    /\ stdout w' = ["x" +:+ nl]
    /\ calls w' = CallReadDir "." :: relocation_calls "x" "x".
Proof.
  intros rt w. eexists. split; [vm_compute; reflexivity|].
  repeat split.
Qed.

(** ** The archive dispatcher *)

Section Dispatcher.
Context {rt : Runtime}.

Lemma unarchiveEntries_skip pre rest :
  Forall unrecognized pre ->
  unarchiveEntries (pre ++ rest) = unarchiveEntries rest.
Proof.
  induction 1 as [|file pre Hfile _ IH]; simpl; [done|].
  unfold unrecognized in Hfile. by rewrite Hfile.
Qed.

Lemma unarchiveEntries_none entries w :
  Forall unrecognized entries ->
  unarchiveEntries entries w = (inl (Some NoArchiveFound), w).
Proof.
  intros Hall. rewrite <- (app_nil_r entries).
  by rewrite unarchiveEntries_skip.
Qed.

Lemma os_Remove_result path w :
  os_Remove path w
  = match remove_error path w with
    | Some err => (inl (Some err), record (CallRemove path) w)
    | None =>
        (inl None,
         with_files (delete path (files w)) (record (CallRemove path) w))
    end.
Proof. unfold os_Remove, remove_error. by repeat case_match. Qed.

(** The first recognized entry decides the whole run. *)
Lemma unarchiveEntries_first pre file post argv w :
  Forall unrecognized pre ->
  archiveCommand (entryName file) = Some argv ->
  let name := entryName file in
  let w1 := after_child argv w in
  unarchiveEntries (pre ++ file :: post) w
  = match child_err (child argv w) with
    | Some err =>
        (inl (Some (Errorf_w ("failed to unarchive " +:+ name +:+ ": ") err)),
         w1)
    | None =>
        match remove_error name w1 with
        | Some err =>
            (inl (Some (Errorf_w
                          "failed to remove original archive file: " err)),
             record (CallRemove name) w1)
        | None =>
            (inl None,
             mkWorld (delete name (files w1))
                     (stdout w1 ++ ["Unarchived and removed: " +:+ name +:+ nl])
                     (stderr w1) (calls w1 ++ [CallRemove name]))
        end
    end.
Proof.
  intros Hpre Hcmd name w1. rewrite unarchiveEntries_skip by done.
  simpl. rewrite Hcmd. unfold bind, cmd_Run. fold (after_child argv w).
  fold w1. destruct (child_err (child argv w)); [done|].
  fold name. rewrite os_Remove_result.
  destruct (remove_error name w1); done.
Qed.

End Dispatcher.

(** The extension-to-tool table. *)
Lemma archiveCommand_table {rt : Runtime} name :
  let ext := ToLower (filepath.Ext name) in
  (ext = ".zip" -> archiveCommand name = Some ["unzip"; name])
  /\ (ext = ".gz" \/ ext = ".tgz" ->
      archiveCommand name = Some ["tar"; "-xzf"; name])
  /\ (ext = ".tar" -> archiveCommand name = Some ["tar"; "-xf"; name])
  /\ (ext = ".7z" -> archiveCommand name = Some ["7z"; "x"; name])
  /\ (ext ∉ [".zip"; ".gz"; ".tgz"; ".tar"; ".7z"] ->
      archiveCommand name = None).
Proof.
  intros ext. unfold archiveCommand. fold ext.
  repeat split.
  - by intros ->.
  - by intros [-> | ->].
  - by intros ->.
  - by intros ->.
  - intros Hext.
    repeat match goal with
    | |- context [String.eqb ext ?s] =>
        destruct (String.eqb_spec ext s) as [Heq|_];
        [exfalso; apply Hext; rewrite Heq; set_solver|]
    end.
    done.
Qed.

(** C7. The dispatcher reads the current directory and passes over the
    entries, in listing order, whose lower-cased extension is not in the
    table; for the first entry that is recognized it runs exactly the
    command of the table ([unzip f], [tar -xzf f] for [.gz] and [.tgz],
    [tar -xf f], [7z x f]) and no other command; when no entry is
    recognized it runs nothing and fails with [NoArchiveFound]. *)
Theorem dispatcher_runs_first_match {rt : Runtime} entries w :
  readDir "." w = inl entries ->
  (forall file, file ∈ entries ->
     let name := entryName file in
     let ext := ToLower (filepath.Ext name) in
     (ext = ".zip" -> archiveCommand name = Some ["unzip"; name])
     /\ (ext = ".gz" \/ ext = ".tgz" ->
         archiveCommand name = Some ["tar"; "-xzf"; name])
     /\ (ext = ".tar" -> archiveCommand name = Some ["tar"; "-xf"; name])
     /\ (ext = ".7z" -> archiveCommand name = Some ["7z"; "x"; name])
     /\ (ext ∉ [".zip"; ".gz"; ".tgz"; ".tar"; ".7z"] -> unrecognized file))
  /\ (forall pre file post argv,
        entries = pre ++ file :: post ->
        Forall unrecognized pre ->
        archiveCommand (entryName file) = Some argv ->
        exists r w',
          unarchiveFile w = (inl r, w')
          /\ r <> Some NoArchiveFound
          /\ (calls w' = calls w ++ [CallReadDir "."; CallRun argv]
              \/ calls w' = calls w ++ [CallReadDir "."; CallRun argv;
                                        CallRemove (entryName file)]))
  /\ (Forall unrecognized entries ->
      unarchiveFile w
      = (inl (Some NoArchiveFound), record (CallReadDir ".") w)).
Proof.
  intros Hdir. split; [|split].
  - intros file _. apply archiveCommand_table.
  - intros pre file post argv -> Hpre Hcmd.
    unfold unarchiveFile, bind, os_ReadDir. rewrite Hdir.
    rewrite (unarchiveEntries_first pre file post argv _ Hpre Hcmd).
    destruct (child_err _); [|destruct (remove_error _ _)];
      eexists _, _; (split; [reflexivity|]); (split; [done|]); simpl;
      rewrite <- ?app_assoc; auto.
  - intros Hall. unfold unarchiveFile, bind, os_ReadDir. rewrite Hdir.
    by apply unarchiveEntries_none.
Qed.

Lemma dispatcher_runs_first_match_witness :
  let rt := calmRuntime notesAndArchive in
  let w := mkWorld {[ "archive.ZIP" := threeBytes ]} [] [] [] in
  exists r w',
    unarchiveFile w = (inl r, w')
    /\ (calls w' = [CallReadDir "."; CallRun ["unzip"; "archive.ZIP"]]
        \/ calls w' = [CallReadDir "."; CallRun ["unzip"; "archive.ZIP"];
                       CallRemove "archive.ZIP"]).
Proof.
  intros rt w.
  destruct (@dispatcher_runs_first_match rt notesAndArchive w eq_refl)
    as (_ & Hfirst & _).
  destruct (Hfirst [mkDirEntry "Notes.txt" false 4 None]
              (mkDirEntry "archive.ZIP" false 5 None) []
              ["unzip"; "archive.ZIP"])
    as (r & w' & Hrun & _ & Hcalls).
  - reflexivity.
  - constructor; [reflexivity|constructor].
  - reflexivity.
  - exists r, w'. split; [exact Hrun|exact Hcalls].
Defined.




(** ** The process: output and exit status *)

Section Process.
Context {rt : Runtime}.

Lemma relocateFile_quiet sourceDir fileToMove w err w' :
  relocateFile sourceDir fileToMove w = (inl (Some err), w') ->
  stdout w' = stdout w /\ stderr w' = stderr w.
Proof. run_relocate; by intros [= <- <-]. Qed.

Lemma moveNthNewestFile_success cfg w w1 :
  moveNthNewestFile cfg w = (inl None, w1) ->
  exists fileToMove,
    chosen cfg w fileToMove
    /\ stdout w1 = stdout w ++ [Name fileToMove +:+ nl]
    /\ stderr w1 = stderr w.
Proof.
  unfold moveNthNewestFile, bind, os_ReadDir, moveFile.
  destruct (readDir (sourceDir cfg) w) as [entries|err] eqn:Hdir; [|done].
  destruct (collectFiles entries (fileFilter cfg) [])
    as [regularFiles|err] eqn:Hcollect; [|done].
  destruct (selectFile regularFiles (nthNewest cfg) (fileFilter cfg))
    as [fileToMove|err|p] eqn:Hsel; [|done..].
  intros Hrun. apply relocateFile_success in Hrun
    as (content & _ & _ & _ & _ & _ & _ & Hout & Herr).
  exists fileToMove. split; [by exists entries, regularFiles|done].
Qed.

Lemma moveNthNewestFile_failure cfg w err w1 :
  moveNthNewestFile cfg w = (inl (Some err), w1) ->
  stdout w1 = stdout w /\ stderr w1 = stderr w.
Proof.
  unfold moveNthNewestFile, bind, os_ReadDir, moveFile, ret, raise.
  destruct (readDir (sourceDir cfg) w) as [entries|e]; [|by intros [= <- <-]].
  destruct (collectFiles entries (fileFilter cfg) []) as [regularFiles|e];
    [|by intros [= <- <-]].
  destruct (selectFile regularFiles (nthNewest cfg) (fileFilter cfg))
    as [fileToMove|e|p]; [|by intros [= <- <-]|done].
  intros Hrun. by apply relocateFile_quiet in Hrun.
Qed.

Lemma first_recognized entries :
  Forall unrecognized entries
  \/ exists pre file post argv,
       entries = pre ++ file :: post
       /\ Forall unrecognized pre
       /\ archiveCommand (entryName file) = Some argv.
Proof.
  induction entries as [|file rest IH]; [by left|].
  destruct (archiveCommand (entryName file)) as [argv|] eqn:Hcmd.
  - right. by exists [], file, rest, argv.
  - destruct IH as [Hall|(pre & f & post & argv & -> & Hpre & Hf)].
    + left. by constructor.
    + right. exists (file :: pre), f, post, argv.
      split; [done|]. split; [by constructor|done].
Qed.

Lemma unarchiveFile_returns w :
  exists r w2, unarchiveFile w = (inl r, w2).
Proof.
  unfold unarchiveFile, bind, os_ReadDir, ret.
  destruct (readDir "." w) as [entries|err]; [|eauto].
  destruct (first_recognized entries)
    as [Hall|(pre & file & post & argv & -> & Hpre & Hcmd)].
  - rewrite unarchiveEntries_none by done. eauto.
  - rewrite (unarchiveEntries_first pre file post argv _ Hpre Hcmd).
    repeat case_match; eauto.
Qed.

Lemma unarchiveFile_success w w2 :
  unarchiveFile w = (inl None, w2) ->
  exists file argv,
    archiveCommand (entryName file) = Some argv
    /\ stdout w2
       = stdout w
         ++ child_stdout (child argv (record (CallReadDir ".") w))
         ++ ["Unarchived and removed: " +:+ entryName file +:+ nl].
Proof.
  unfold unarchiveFile, bind, os_ReadDir, ret.
  destruct (readDir "." w) as [entries|err]; [|done].
  destruct (first_recognized entries)
    as [Hall|(pre & file & post & argv & -> & Hpre & Hcmd)].
  - by rewrite unarchiveEntries_none.
  - rewrite (unarchiveEntries_first pre file post argv _ Hpre Hcmd).
    repeat case_match; try done. intros [= <-].
    exists file, argv. split; [done|]. simpl. by rewrite <- app_assoc.
Qed.

End Process.

(** C9, counterexample.  With [--unarchive] a successful run also prints
    the dispatcher's own line on the standard output. *)
Lemma unarchive_prints_second_line : ~ only_filename_on_stdout.
Proof.
  intros Hclaim.
  destruct (Hclaim (calmRuntime notesAndArchive) _
              (mkFlags "/dl" 1 "" true) []
              (mkWorld {[ "/dl/archive.ZIP" := threeBytes ]} [] [] [])
              (mkWorld ∅
                 ["archive.ZIP" +:+ nl;
                  "Unarchived and removed: archive.ZIP" +:+ nl] []
                 (CallReadDir "/dl"
                  :: relocation_calls "/dl/archive.ZIP" "archive.ZIP"
                  ++ [CallReadDir "."; CallRun ["unzip"; "archive.ZIP"];
                      CallRemove "archive.ZIP"])))
    as [moved Hout].
  - vm_compute. reflexivity.
  - simpl in Hout. discriminate Hout.
Qed.

(** C9, amended.  When the move reports an error, "Error: " and its
    message go to the error stream, nothing goes to the standard output and
    the status is 1.  When the move succeeds the moved file's name is
    printed on the standard output; without [--unarchive] that is all and
    the status is 0; with [--unarchive], a dispatcher error goes to the
    error stream as "Error unarchiving: " with status 1, and on success the
    standard output further receives the extraction tool's output and the
    line "Unarchived and removed: <archive>", with status 0. *)
Theorem run_output_and_status {rt : Runtime} cfg args w r w1 :
  moveNthNewestFile (withArgs cfg args) w = (inl r, w1) ->
  match r with
  | Some err =>
      exists w',
        Execute cfg args w = (Exited 1, w')
        /\ stderr w' = stderr w ++ ["Error: " +:+ Error err +:+ nl]
        /\ stdout w' = stdout w
  | None =>
      (exists fileToMove,
         chosen (withArgs cfg args) w fileToMove
         /\ stdout w1 = stdout w ++ [Name fileToMove +:+ nl]
         /\ stderr w1 = stderr w)
      /\ (unarchive cfg = false -> Execute cfg args w = (Exited 0, w1))
      /\ (unarchive cfg = true ->
          exists r2 w2,
            unarchiveFile w1 = (inl r2, w2)
            /\ match r2 with
               | Some err =>
                   exists w',
                     Execute cfg args w = (Exited 1, w')
                     /\ stderr w'
                        = stderr w2
                          ++ ["Error unarchiving: " +:+ Error err +:+ nl]
                     /\ stdout w' = stdout w2
               | None =>
                   Execute cfg args w = (Exited 0, w2)
                   /\ exists file argv,
                        archiveCommand (entryName file) = Some argv
                        /\ stdout w2
                           = stdout w1
                             ++ child_stdout
                                  (child argv (record (CallReadDir ".") w1))
                             ++ ["Unarchived and removed: "
                                 +:+ entryName file +:+ nl]
               end)
  end.
Proof.
  intros Hmove.
  assert (Hflag : unarchive (withArgs cfg args) = unarchive cfg)
    by by destruct args.
  destruct r as [err|].
  - destruct (moveNthNewestFile_failure _ _ _ _ Hmove) as [Hout Herr].
    eexists. unfold Execute, rootCmd_Run, bind. rewrite Hmove. simpl.
    split; [reflexivity|]. simpl. by rewrite Hout, Herr.
  - split; [by apply moveNthNewestFile_success|].
    split.
    + intros Hz. unfold Execute, rootCmd_Run, bind.
      by rewrite Hmove, Hflag, Hz.
    + intros Hz. destruct (unarchiveFile_returns w1) as (r2 & w2 & Hun).
      exists r2, w2. split; [done|].
      unfold Execute, rootCmd_Run, bind. rewrite Hmove, Hflag, Hz, Hun.
      destruct r2 as [err|]; simpl.
      * eexists. split; [reflexivity|]. done.
      * split; [done|]. by apply unarchiveFile_success.
Qed.

Lemma run_output_and_status_witness :
  let rt := calmRuntime notesAndArchive in
  let w := mkWorld {[ "/dl/Notes.txt" := threeBytes ]} [] [] [] in
  exists w',
    Execute (mkFlags "/dl" 1 "" false) ["notes"] w = (Exited 0, w')
    /\ stdout w' = ["Notes.txt" +:+ nl].
Proof.
  intros rt w.
  assert (Hmove :
    moveNthNewestFile (withArgs (mkFlags "/dl" 1 "" false) ["notes"]) w
    = (inl None,
       snd (moveNthNewestFile
              (withArgs (mkFlags "/dl" 1 "" false) ["notes"]) w)))
    by (vm_compute; reflexivity).
  destruct (run_output_and_status (mkFlags "/dl" 1 "" false) ["notes"] w
              _ _ Hmove) as (_ & Hexit & _).
  eexists. split; [exact (Hexit eq_refl)|].
  vm_compute. reflexivity.
Defined.

(** ** The earlier revision on the same inputs *)

(** [src/cmd/root.go] renames: a file selected in the current directory
    stays where it is, and the line printed is a sentence, not the bare
    name. *)
Lemma RootV1_renames_in_place :
  let rt := calmRuntime [mkDirEntry "x" false 1 None] in
  let w := mkWorld {[ "x" := threeBytes ]} [] [] [] in
  exists w',
    RootV1.moveNthNewestFile (mkFlags "." 1 "" false) w = (inl None, w')
    /\ files w' !! "x" = Some threeBytes
    /\ stdout w' = ["Moved x to current directory" +:+ nl]
    /\ calls w' = [CallReadDir "."; CallRename "x" "x"].
Proof.
  intros rt w. eexists. split; [vm_compute; reflexivity|].
  repeat split.
Qed.

(** * Further properties of the code *)

(** ** The loop over the directory entries *)

(** X1. The loop of [moveNthNewestFile] fails exactly when [Info()] fails
    for some entry that is not a directory; the error wraps that of the
    first such entry under "failed to get file info", whether or not the
    entry would have passed the filter. *)
Theorem collectFiles_error {rt : Runtime} entries fileFilter err :
  collectFiles entries fileFilter [] = inr err
  <-> exists pre file post cause,
        entries = pre ++ file :: post
        /\ Forall readable pre
        /\ IsDir file = false
        /\ InfoErr file = Some cause
        /\ err = Errorf_w "failed to get file info: " cause.
Proof.
  revert err. induction entries as [|file rest IH]; intros err; simpl.
  - split; [done|]. intros ([|? ?] & ? & ? & ? & ? & _); done.
  - unfold Info. destruct (IsDir file) eqn:Hdir; simpl.
    { rewrite IH. split.
      - intros (pre & f & post & cause & -> & Hpre & Hf).
        exists (file :: pre), f, post, cause. split; [done|].
        split; [|done]. constructor; [|done]. unfold readable. congruence.
      - intros ([|e pre] & f & post & cause & Heq & Hpre & Hd & Hf);
          simplify_eq/=; [congruence|].
        apply Forall_cons in Hpre as [_ Hpre]. by exists pre, f, post, cause. }
    destruct (InfoErr file) as [cause0|] eqn:Hinfo; simpl.
    { split.
      - intros [= <-]. by exists [], file, rest, cause0.
      - intros ([|e pre] & f & post & cause & Heq & Hpre & Hd & Hf & ->);
          simplify_eq/=; [done|].
        apply Forall_cons in Hpre as [Hr _]. specialize (Hr Hdir). congruence. }
    assert (Hstep : forall acc,
      collectFiles rest fileFilter acc = inr err
      <-> collectFiles rest fileFilter [] = inr err).
    { intros acc. rewrite collectFiles_app.
      destruct (collectFiles rest fileFilter []); split; congruence. }
    destruct (_ || _); rewrite ?Hstep, IH; (split;
      [ intros (pre & f & post & cause & -> & Hpre & Hf);
        exists (file :: pre), f, post, cause; split; [done|];
        split; [|done]; constructor; [|done]; unfold readable; congruence
      | intros ([|e pre] & f & post & cause & Heq & Hpre & Hd & Hf & ->);
        simplify_eq/=; try congruence;
        apply Forall_cons in Hpre as [_ Hpre]; by exists pre, f, post, cause ]).
Qed.

Lemma collectFiles_error_witness :
  collectFiles (rt := calmRuntime [])
    [ mkDirEntry "docs" true 1 (Some (errorString "stale"));
      mkDirEntry "a.txt" false 2 None;
      mkDirEntry "b.log" false 3 (Some (errorString "lstat b.log: gone"));
      mkDirEntry "c.txt" false 4 None ] "txt" []
  = inr (Errorf_w "failed to get file info: " (errorString "lstat b.log: gone")).
Proof.
  apply (@collectFiles_error (calmRuntime [])).
  exists [ mkDirEntry "docs" true 1 (Some (errorString "stale"));
           mkDirEntry "a.txt" false 2 None ],
         (mkDirEntry "b.log" false 3 (Some (errorString "lstat b.log: gone"))),
         [ mkDirEntry "c.txt" false 4 None ],
         (errorString "lstat b.log: gone").
  split; [reflexivity|]. split; [|repeat split].
  repeat constructor; unfold readable; simpl; congruence.
Defined.

(** ** Runs that select no file *)

(** X2. When no file is selected (the directory cannot be read, an
    [Info()] fails, there is no candidate, the rank is out of range or not
    positive) [moveNthNewestFile] does not return success and has done
    nothing but read the source directory: no file is opened, created,
    removed or renamed and nothing is printed.  Both revisions. *)
Theorem no_selection_no_effect {rt : Runtime} cfg w :
  (forall fileToMove, ~ chosen cfg w fileToMove) ->
  (exists r,
     moveNthNewestFile cfg w = (r, record (CallReadDir (sourceDir cfg)) w)
     /\ r <> inl None)
  /\ (exists r,
        RootV1.moveNthNewestFile cfg w
        = (r, record (CallReadDir (sourceDir cfg)) w)
        /\ r <> inl None).
Proof.
  intros Hnone.
  unfold moveNthNewestFile, RootV1.moveNthNewestFile, bind, os_ReadDir,
    moveFile, ret, raise.
  destruct (readDir (sourceDir cfg) w) as [entries|e] eqn:Hdir;
    [|split; eexists; split; (reflexivity || done)].
  destruct (collectFiles entries (fileFilter cfg) []) as [regularFiles|e]
    eqn:Hcollect; [|split; eexists; split; (reflexivity || done)].
  destruct (selectFile regularFiles (nthNewest cfg) (fileFilter cfg))
    as [fileToMove|e|p] eqn:Hsel;
    [|split; eexists; split; (reflexivity || done)..].
  exfalso. apply (Hnone fileToMove). by exists entries, regularFiles.
Qed.

Lemma no_selection_no_effect_witness :
  let rt := calmRuntime [mkDirEntry "docs" true 1 None] in
  let w := mkWorld {[ "/dl/docs/x" := threeBytes ]} [] [] [] in
  moveNthNewestFile (mkFlags "/dl" 1 "" false) w
  = (inl (Some (NotFound "")), record (CallReadDir "/dl") w).
Proof.
  intros rt w.
  destruct (@no_selection_no_effect rt (mkFlags "/dl" 1 "" false) w)
    as [(r & Hrun & _) _].
  - intros f (entries & regularFiles & Hdir & Hcollect & Hsel).
    vm_compute in Hdir. injection Hdir as <-.
    vm_compute in Hcollect. injection Hcollect as <-.
    vm_compute in Hsel. discriminate Hsel.
  - pose proof (f_equal fst Hrun) as Hr. rewrite Hrun. f_equal.
    vm_compute in Hr. rewrite <- Hr. reflexivity.
Defined.

(** ** What the selected file is *)

Lemma selectFile_Selected_elem {rt : Runtime} {laws : RuntimeLaws rt}
    regularFiles nthNewest fileFilter fileToMove :
  selectFile regularFiles nthNewest fileFilter = Selected fileToMove ->
  fileToMove ∈ regularFiles.
Proof.
  unfold selectFile. repeat case_match; try done. intros [= <-].
  rewrite <- (sort_Slice_Permutation newerFirst regularFiles).
  by eapply list_elem_of_lookup_2.
Qed.

(** X3. The file a successful run moves, and whose name it prints, is the
    description of an entry of the source directory listing that is not a
    directory and whose lower-cased name contains the lower-cased filter:
    sorting and indexing never leave the candidate set. *)
Theorem moved_file_is_matching_entry {rt : Runtime} {laws : RuntimeLaws rt}
    cfg w w' :
  moveNthNewestFile cfg w = (inl None, w') ->
  exists entries file,
    readDir (sourceDir cfg) w = inl entries
    /\ file ∈ entries
    /\ IsDir file = false
    /\ strings.Contains (ToLower (entryName file)) (ToLower (fileFilter cfg))
       = true
    /\ chosen cfg w (infoOf file)
    /\ stdout w' = stdout w ++ [entryName file +:+ nl].
Proof.
  intros Hrun.
  destruct (moveNthNewestFile_success cfg w w' Hrun)
    as (f & Hchosen & Hout & _).
  pose proof Hchosen as (entries & regularFiles & Hdir & Hcollect & Hsel).
  apply selectFile_Selected_elem in Hsel.
  apply collectFiles_inl in Hcollect as [_ ->].
  apply list_elem_of_fmap in Hsel as (file & -> & Hfile).
  apply list_elem_of_filter in Hfile as [Hkeep Hin].
  unfold retained in Hkeep.
  apply andb_true_iff in Hkeep as [Hd Hc]. apply negb_true_iff in Hd.
  exists entries, file. repeat split; try done.
  apply orb_true_iff in Hc as [Hc|Hc]; [|done].
  apply String.eqb_eq in Hc. rewrite Hc. apply Contains_empty.
Qed.

Lemma moved_file_is_matching_entry_witness :
  let rt := calmRuntime (mkDirEntry "Txt-box" true 9 None :: scenario 1 3 2) in
  let w := mkWorld {[ "/dl/c.txt" := threeBytes ]} [] [] [] in
  exists w' file,
    moveNthNewestFile (mkFlags "/dl" 1 "TXT" false) w = (inl None, w')
    /\ IsDir file = false
    /\ stdout w' = [entryName file +:+ nl].
Proof.
  intros rt w.
  assert (Hrun :
    moveNthNewestFile (mkFlags "/dl" 1 "TXT" false) w
    = (inl None, snd (moveNthNewestFile (mkFlags "/dl" 1 "TXT" false) w)))
    by (vm_compute; reflexivity).
  destruct (moved_file_is_matching_entry _ w _ Hrun)
    as (entries & file & _ & _ & Hd & _ & _ & Hout).
  eexists _, file. split; [exact Hrun|]. split; [exact Hd|exact Hout].
Defined.

(** ** What a rank means *)

Lemma filter_none {A} (P : A -> Prop) `{!forall x, Decision (P x)} (l : list A) :
  Forall (fun x => ~ P x) l -> filter P l = [].
Proof.
  induction 1 as [|x l Hx _ IH]; [done|]. by rewrite filter_cons_False.
Qed.

Lemma filter_all {A} (P : A -> Prop) `{!forall x, Decision (P x)} (l : list A) :
  Forall P l -> filter P l = l.
Proof.
  induction 1 as [|x l Hx _ IH]; [done|]. by rewrite filter_cons_True, IH.
Qed.

Lemma StronglySorted_lookup {A} (R : A -> A -> Prop) l i j x y :
  StronglySorted R l -> l !! i = Some x -> l !! j = Some y ->
  (i < j)%nat -> R x y.
Proof.
  intros Hs. revert i j. induction Hs as [|a l Hs IH Ha]; intros i j Hi Hj Hij.
  - done.
  - destruct j as [|j]; [lia|]. destruct i as [|i]; simpl in *.
    + injection Hi as <-. rewrite Forall_forall in Ha.
      apply Ha. by eapply list_elem_of_lookup_2.
    + apply (IH i j); [done..|lia].
Qed.

Section Rank.
Context {rt : Runtime} {laws : RuntimeLaws rt}.

(** In the sorted slice a later file is never newer. *)
Lemma sort_Slice_lookup_le l i j x y :
  sort_Slice newerFirst l !! i = Some x ->
  sort_Slice newerFirst l !! j = Some y ->
  (i <= j)%nat -> ModTime y <= ModTime x.
Proof.
  intros Hi Hj Hij. destruct (decide (i = j)) as [->|Hne].
  - rewrite Hi in Hj. injection Hj as ->. lia.
  - pose proof (sort_Slice_sorted newerFirst l newerFirst_ok) as Hs.
    pose proof (StronglySorted_lookup _ _ i j x y Hs Hi Hj ltac:(lia)) as Hxy.
    unfold newerFirst, After in Hxy. apply Z.ltb_ge in Hxy. lia.
Qed.

Lemma selectFile_Selected_inv regularFiles nthNewest fileFilter fileToMove :
  is_int nthNewest -> is_int (len regularFiles) ->
  selectFile regularFiles nthNewest fileFilter = Selected fileToMove ->
  1 <= nthNewest <= len regularFiles
  /\ sort_Slice newerFirst regularFiles !! Z.to_nat (nthNewest - 1)
     = Some fileToMove.
Proof.
  intros Hint Hlen. unfold selectFile. rewrite sort_Slice_len.
  destruct (len regularFiles =? 0); [by destruct (negb _)|].
  destruct (Z.gtb_spec nthNewest (len regularFiles)); [done|].
  destruct (andb _ _) eqn:Hidx; [|done].
  apply andb_true_iff in Hidx as [H0 H1].
  apply Z.leb_le in H0. apply Z.ltb_lt in H1.
  assert (nthNewest <> min_int) as Hmin.
  { intros ->. unfold is_int, min_int, max_int, int_sub, wrap_int in *.
    change ((- 2 ^ 63 - 1 + 2 ^ 63) mod 2 ^ 64 - 2 ^ 63) with (2 ^ 63 - 1) in *.
    lia. }
  unfold int_sub in *.
  rewrite wrap_int_id in * by (unfold is_int, min_int, max_int in *; lia).
  destruct (_ !! _) eqn:Hf; [|done]. intros [= <-]. split; [lia|done].
Qed.

(** X4. The file selected at rank [n] is an [n]-th newest whatever the
    order of ties: at most [n - 1] candidates are strictly newer than it and
    at least [n] candidates (itself included) are at least as new. *)
Theorem selected_rank_counts regularFiles nthNewest fileFilter fileToMove :
  is_int nthNewest -> is_int (len regularFiles) ->
  selectFile regularFiles nthNewest fileFilter = Selected fileToMove ->
  1 <= nthNewest <= len regularFiles
  /\ len (strictly_newer fileToMove regularFiles) <= nthNewest - 1
  /\ nthNewest <= len (at_least_as_new fileToMove regularFiles).
Proof.
  intros Hint Hlen Hsel.
  destruct (selectFile_Selected_inv _ _ _ _ Hint Hlen Hsel) as [Hrank Hf].
  set (s := sort_Slice newerFirst regularFiles) in *.
  set (i := Z.to_nat (nthNewest - 1)) in *.
  assert (Hi : (i < length s)%nat) by by eapply lookup_lt_Some.
  split; [done|]. split.
  - assert (Hperm : strictly_newer fileToMove regularFiles
                    ≡ₚ strictly_newer fileToMove s)
      by (unfold strictly_newer, s; by rewrite sort_Slice_Permutation).
    unfold len. rewrite Hperm. unfold strictly_newer.
    rewrite <- (take_drop i s), filter_app.
    rewrite (filter_none _ (drop i s)).
    + rewrite app_nil_r.
      pose proof (length_filter (fun g => ModTime fileToMove < ModTime g)
                    (take i s)) as Hle.
      rewrite length_take in Hle. lia.
    + apply Forall_lookup. intros k g Hk. rewrite lookup_drop in Hk.
      pose proof (sort_Slice_lookup_le _ _ _ _ _ Hf Hk ltac:(lia)). lia.
  - assert (Hperm : at_least_as_new fileToMove regularFiles
                    ≡ₚ at_least_as_new fileToMove s)
      by (unfold at_least_as_new, s; by rewrite sort_Slice_Permutation).
    unfold len. rewrite Hperm. unfold at_least_as_new.
    rewrite <- (take_drop (S i) s), filter_app, length_app.
    rewrite (filter_all _ (take (S i) s)).
    + rewrite length_take. lia.
    + apply Forall_lookup. intros k g Hk.
      apply lookup_take_Some in Hk as [Hk Hlt].
      apply (sort_Slice_lookup_le _ _ _ _ _ Hk Hf). lia.
Qed.

(** X5. Rank 1, the default, selects a file that no candidate is newer
    than; the rank equal to the number of candidates selects a file that no
    candidate is older than. *)
Theorem extreme_ranks regularFiles fileFilter fileToMove :
  is_int (len regularFiles) ->
  (selectFile regularFiles 1 fileFilter = Selected fileToMove ->
   forall g, g ∈ regularFiles -> ModTime g <= ModTime fileToMove)
  /\ (selectFile regularFiles (len regularFiles) fileFilter
        = Selected fileToMove ->
      forall g, g ∈ regularFiles -> ModTime fileToMove <= ModTime g).
Proof.
  intros Hlen. split; intros Hsel g Hg.
  - destruct (selectFile_Selected_inv _ 1 _ _ ltac:(by vm_compute) Hlen Hsel)
      as [_ Hf].
    rewrite <- (sort_Slice_Permutation newerFirst regularFiles) in Hg.
    apply list_elem_of_lookup in Hg as [j Hj].
    apply (sort_Slice_lookup_le _ _ _ _ _ Hf Hj). simpl. lia.
  - destruct (selectFile_Selected_inv _ _ _ _ Hlen Hlen Hsel) as [_ Hf].
    rewrite <- (sort_Slice_Permutation newerFirst regularFiles) in Hg.
    apply list_elem_of_lookup in Hg as [j Hj].
    apply (sort_Slice_lookup_le _ _ _ _ _ Hj Hf).
    apply lookup_lt_Some in Hj.
    rewrite sort_Slice_Permutation in Hj. unfold len. lia.
Qed.

(** X6. When no two candidates share a modification time the order in
    which the directory was enumerated does not matter: any reordering of
    the candidates yields the same selection, error or panic. *)
Theorem selection_ignores_enumeration_order
    regularFiles regularFiles' nthNewest fileFilter :
  regularFiles ≡ₚ regularFiles' ->
  NoDup (ModTime <$> regularFiles) ->
  selectFile regularFiles nthNewest fileFilter
  = selectFile regularFiles' nthNewest fileFilter.
Proof.
  intros Hperm Hnd.
  assert (Hnd' : NoDup (ModTime <$> regularFiles')) by by rewrite <- Hperm.
  assert (Hlen : len regularFiles = len regularFiles')
    by (unfold len; by rewrite Hperm).
  assert (Hsort : sort_Slice newerFirst regularFiles
                  = sort_Slice newerFirst regularFiles').
  { rewrite !sort_Slice_distinct by done.
    apply same_times_same_files.
    - by rewrite !stable_sort_Permutation.
    - by rewrite stable_sort_Permutation.
    - apply descending_unique.
      + apply sorted_by_newerFirst, stable_sort_sorted, newerFirst_ok.
      + apply sorted_by_newerFirst, stable_sort_sorted, newerFirst_ok.
      + apply fmap_Permutation. by rewrite !stable_sort_Permutation. }
  unfold selectFile. by rewrite Hsort, Hlen.
Qed.

End Rank.

Lemma selected_rank_counts_witness :
  let l := [mkFileInfo "x" 5; mkFileInfo "y" 5; mkFileInfo "z" 7] in
  len (strictly_newer (mkFileInfo "x" 5) l) <= 2 - 1
  /\ 2 <= len (at_least_as_new (mkFileInfo "x" 5) l).
Proof.
  intros l.
  destruct (@selected_rank_counts (calmRuntime []) _ l 2 "" (mkFileInfo "x" 5))
    as (_ & Hnewer & Hasnew).
  - unfold is_int, min_int, max_int. lia.
  - unfold is_int, min_int, max_int, len. simpl. lia.
  - reflexivity.
  - split; [exact Hnewer|exact Hasnew].
Defined.

Lemma extreme_ranks_witness :
  let l := [mkFileInfo "x" 5; mkFileInfo "y" 5; mkFileInfo "z" 7] in
  forall g, g ∈ l -> ModTime g <= 7.
Proof.
  intros l.
  destruct (@extreme_ranks (calmRuntime []) _ l "" (mkFileInfo "z" 7))
    as [Hnewest _].
  - unfold is_int, min_int, max_int, len. simpl. lia.
  - exact (Hnewest eq_refl).
Defined.

Lemma selection_ignores_enumeration_order_witness :
  let rt := scriptedRuntime true (fun _ => inl []) (fun _ => None) 0 idleChild in
  selectFile [mkFileInfo "a" 1; mkFileInfo "b" 3; mkFileInfo "c" 2] 2 ""
  = selectFile [mkFileInfo "c" 2; mkFileInfo "a" 1; mkFileInfo "b" 3] 2 "".
Proof.
  intros rt.
  apply (@selection_ignores_enumeration_order rt _).
  - exact (Permutation_app_comm [mkFileInfo "a" 1; mkFileInfo "b" 3]
             [mkFileInfo "c" 2]).
  - simpl. distinct_times.
Defined.

(** ** What a relocation touches *)

(** X7. Whatever its outcome, the relocation leaves every path other than
    the source path and the destination path as it was. *)
Theorem relocation_frame {rt : Runtime} sourceDir fileToMove w r w' :
  relocateFile sourceDir fileToMove w = (r, w') ->
  forall p,
    p <> filepath_Join sourceDir (Name fileToMove) ->
    p <> filepath_Join "." (Name fileToMove) ->
    files w' !! p = files w !! p.
Proof.
  run_relocate; intros [= <- <-] p Hs Hd; simpl;
    by rewrite ?lookup_delete_ne, ?lookup_insert_ne.
Qed.

Lemma relocation_frame_witness :
  let rt := scriptedRuntime false (fun _ => inl []) diskFull 2 idleChild in
  let w := mkWorld {[ "/dl/x" := threeBytes; "keep" := threeBytes ]} [] [] [] in
  files (snd (relocateFile "/dl" (mkFileInfo "x" 1) w)) !! "keep"
  = Some threeBytes.
Proof.
  intros rt w.
  rewrite (relocation_frame "/dl" (mkFileInfo "x" 1) w _ _
             (surjective_pairing _) "keep").
  - reflexivity.
  - vm_compute. discriminate.
  - vm_compute. discriminate.
Defined.

(** X8. A file of the same name already in the current directory is
    overwritten without a check: when the two paths differ, after the run
    the destination holds either what it held before (the run stopped at
    open or create) or a prefix of the source's bytes, and after a
    successful run the whole of them; its previous content is not kept
    anywhere.  The source holds its bytes unless the run succeeded. *)
Theorem destination_overwritten {rt : Runtime} sourceDir fileToMove w r w'
    content :
  relocateFile sourceDir fileToMove w = (inl r, w') ->
  let sourcePath := filepath_Join sourceDir (Name fileToMove) in
  let destPath := filepath_Join "." (Name fileToMove) in
  sourcePath <> destPath ->
  files w !! sourcePath = Some content ->
  (files w' !! destPath = files w !! destPath /\ r <> None
   \/ exists n, files w' !! destPath = Some (take n content))
  /\ (r = None ->
      files w' !! destPath = Some content /\ files w' !! sourcePath = None)
  /\ (r <> None -> files w' !! sourcePath = Some content).
Proof.
  intros Hrun sourcePath destPath Hne Hsrc.
  subst sourcePath destPath. revert Hrun.
  run_relocate; intros Hrun; simplify_eq/=;
    repeat first
      [ rewrite lookup_delete_eq | rewrite lookup_delete_ne by congruence
      | rewrite lookup_insert_eq | rewrite lookup_insert_ne by congruence
      | match goal with H : files w !! _ = Some _ |- _ => rewrite H end ];
    simpl;
    (split; [|split; [done|try done]]);
    first [ by left
          | right; by eexists
          | right; exists (length content); by rewrite firstn_all
          | idtac ].
Qed.

Lemma destination_overwritten_witness :
  let rt := calmRuntime [] in
  let w := mkWorld {[ "/dl/x" := threeBytes; "x" := [Byte.x00] ]} [] [] [] in
  exists w',
    relocateFile "/dl" (mkFileInfo "x" 1) w = (inl None, w')
    /\ files w' !! "x" = Some threeBytes
    /\ files w' !! "/dl/x" = None.
Proof.
  intros rt w.
  assert (Hrun :
    relocateFile "/dl" (mkFileInfo "x" 1) w
    = (inl None, snd (relocateFile "/dl" (mkFileInfo "x" 1) w)))
    by (vm_compute; reflexivity).
  destruct (destination_overwritten "/dl" (mkFileInfo "x" 1) w None _
              threeBytes Hrun) as (_ & Hok & _).
  - vm_compute. discriminate.
  - reflexivity.
  - eexists. split; [exact Hrun|exact (Hok eq_refl)].
Defined.

(** ** The earlier revision *)

Ltac run_rename :=
  unfold RootV1.moveNthNewestFile, bind, os_ReadDir, os_Rename, ret, raise,
    fmt_Printf, record, with_files;
  cbn [fst snd files stdout stderr calls];
  repeat case_match; simplify_eq/=.

(** X9. In the earlier revision an error leaves every file as it was and
    prints nothing: the move is one [os.Rename], which either happens or
    does not. *)
Theorem RootV1_failure_changes_nothing {rt : Runtime} cfg w err w' :
  RootV1.moveNthNewestFile cfg w = (inl (Some err), w') ->
  files w' = files w /\ stdout w' = stdout w /\ stderr w' = stderr w.
Proof. run_rename; by intros [= <- <-]. Qed.

Lemma RootV1_failure_changes_nothing_witness :
  let rt := scriptedRuntime false
              (fun _ => inl [mkDirEntry "x" false 1 None])
              (fun c => match c with
                        | CallRename _ _ => Some (errorString "invalid cross-device link")
                        | _ => None
                        end) 0 idleChild in
  let w := mkWorld {[ "/dl/x" := threeBytes ]} [] [] [] in
  files (snd (RootV1.moveNthNewestFile (mkFlags "/dl" 1 "" false) w)) = files w.
Proof.
  intros rt w.
  assert (Hrun :
    RootV1.moveNthNewestFile (mkFlags "/dl" 1 "" false) w
    = (inl (Some (Errorf_w "failed to move file: "
                    (errorString "invalid cross-device link"))),
       snd (RootV1.moveNthNewestFile (mkFlags "/dl" 1 "" false) w)))
    by (vm_compute; reflexivity).
  exact (proj1 (RootV1_failure_changes_nothing _ w _ _ Hrun)).
Defined.

(** X10. In the earlier revision a successful run renames the selected
    file: the source path is gone and the destination holds its bytes, every
    other path is as it was, and when the two paths are one path (the source
    directory is the current directory) no file changes at all.  The line
    printed is "Moved <name> to current directory". *)
Theorem RootV1_success_renames {rt : Runtime} cfg w w' :
  RootV1.moveNthNewestFile cfg w = (inl None, w') ->
  exists fileToMove content,
    let sourcePath := filepath_Join (sourceDir cfg) (Name fileToMove) in
    let destPath := filepath_Join "." (Name fileToMove) in
    chosen cfg w fileToMove
    /\ files w !! sourcePath = Some content
    /\ files w' = <[destPath := content]> (delete sourcePath (files w))
    /\ (sourcePath = destPath -> files w' = files w)
    /\ (sourcePath <> destPath -> files w' !! sourcePath = None)
    /\ stdout w'
       = stdout w ++ ["Moved " +:+ Name fileToMove
                      +:+ " to current directory" +:+ nl]
    /\ calls w'
       = calls w ++ [CallReadDir (sourceDir cfg);
                     CallRename sourcePath destPath].
Proof.
  run_rename; intros [= <-]; simpl.
  eexists _, _. split; [by eexists _, _|]. split; [done|]. split; [done|].
  split; [|split; [|split; [done|by rewrite <- app_assoc]]].
  - intros <-. rewrite insert_delete_eq. by apply insert_id.
  - intros Hne. rewrite lookup_insert_ne by done. apply lookup_delete_eq.
Qed.

Lemma RootV1_success_renames_witness :
  let rt := calmRuntime [mkDirEntry "x" false 1 None] in
  let w := mkWorld {[ "/dl/x" := threeBytes ]} [] [] [] in
  stdout (snd (RootV1.moveNthNewestFile (mkFlags "/dl" 1 "" false) w))
  = ["Moved x to current directory" +:+ nl].
Proof.
  intros rt w.
  assert (Hrun :
    RootV1.moveNthNewestFile (mkFlags "/dl" 1 "" false) w
    = (inl None, snd (RootV1.moveNthNewestFile (mkFlags "/dl" 1 "" false) w)))
    by (vm_compute; reflexivity).
  destruct (RootV1_success_renames _ w _ Hrun)
    as (f & content & Hchosen & _ & _ & _ & _ & Hout & _).
  destruct Hchosen as (entries & regularFiles & Hdir & Hcollect & Hsel).
  vm_compute in Hdir. injection Hdir as <-.
  vm_compute in Hcollect. injection Hcollect as <-.
  vm_compute in Hsel. injection Hsel as <-.
  exact Hout.
Defined.

Lemma RootV1_success_renames_aux {rt : Runtime} cfg w w' :
  RootV1.moveNthNewestFile cfg w = (inl None, w') ->
  exists fileToMove content,
    chosen cfg w fileToMove
    /\ files w !! filepath_Join (sourceDir cfg) (Name fileToMove) = Some content
    /\ files w'
       = <[filepath_Join "." (Name fileToMove) := content]>
           (delete (filepath_Join (sourceDir cfg) (Name fileToMove)) (files w)).
Proof.
  run_rename; intros [= <-]; simpl.
  eexists _, _. split; [by eexists _, _|]. by split.
Qed.

(** X11. The two revisions agree on the files: when both succeed on the
    same flags and world and the source path differs from the destination
    path, they leave the same files behind. *)
Theorem revisions_agree_on_files {rt : Runtime} cfg w w1 w2 :
  RootV1.moveNthNewestFile cfg w = (inl None, w1) ->
  moveNthNewestFile cfg w = (inl None, w2) ->
  (forall fileToMove,
     chosen cfg w fileToMove ->
     filepath_Join (sourceDir cfg) (Name fileToMove)
     <> filepath_Join "." (Name fileToMove)) ->
  files w1 = files w2.
Proof.
  intros H1 H2 Hne.
  destruct (RootV1_success_renames_aux cfg w w1 H1)
    as (f & content & Hchosen & Hsrc & -> ).
  specialize (Hne f Hchosen).
  destruct Hchosen as (entries & regularFiles & Hdir & Hcollect & Hsel).
  revert H2. unfold moveNthNewestFile, bind, os_ReadDir, moveFile.
  rewrite Hdir, Hcollect, Hsel. intros H2.
  apply relocateFile_success in H2
    as (content' & Hsrc' & Hgone & Hdst & _ & Hframe & _).
  simpl in Hsrc'. rewrite Hsrc in Hsrc'. injection Hsrc' as <-.
  apply map_eq. intros p.
  destruct (decide (p = filepath_Join "." (Name f))) as [->|Hd].
  - rewrite lookup_insert_eq. symmetry. by apply Hdst.
  - rewrite lookup_insert_ne by done.
    destruct (decide (p = filepath_Join (sourceDir cfg) (Name f))) as [->|Hs].
    + by rewrite lookup_delete_eq, Hgone.
    + rewrite lookup_delete_ne by done. symmetry. by apply Hframe.
Qed.

Lemma revisions_agree_on_files_witness :
  let rt := calmRuntime [mkDirEntry "x" false 1 None] in
  let w := mkWorld {[ "/dl/x" := threeBytes; "x" := [Byte.x00] ]} [] [] [] in
  files (snd (RootV1.moveNthNewestFile (mkFlags "/dl" 1 "" false) w))
  = files (snd (moveNthNewestFile (mkFlags "/dl" 1 "" false) w)).
Proof.
  intros rt w.
  apply (revisions_agree_on_files (mkFlags "/dl" 1 "" false) w).
  - vm_compute. reflexivity.
  - vm_compute. reflexivity.
  - intros f (entries & regularFiles & Hdir & Hcollect & Hsel).
    vm_compute in Hdir. injection Hdir as <-.
    vm_compute in Hcollect. injection Hcollect as <-.
    vm_compute in Hsel. injection Hsel as <-.
    vm_compute. discriminate.
Defined.

(** ** More on the archive dispatcher *)

(** X12. The dispatcher looks at the names of the entries only: two
    listings with the same names in the same order are treated alike, so
    a directory named like an archive is handed to the extraction tool as a
    file would be. *)
Theorem dispatcher_reads_names_only {rt : Runtime} entries entries' :
  entryName <$> entries = entryName <$> entries' ->
  unarchiveEntries entries = unarchiveEntries entries'.
Proof.
  revert entries'. induction entries as [|file rest IH];
    intros [|file' rest'] Hnames; try done.
  simpl in Hnames. injection Hnames as Hname Hrest. simpl.
  rewrite Hname, (IH rest' Hrest). done.
Qed.

Lemma dispatcher_reads_names_only_witness :
  let rt := calmRuntime [] in
  let w := mkWorld {[ "a.zip" := threeBytes ]} [] [] [] in
  calls (snd (unarchiveEntries [mkDirEntry "a.zip" true 1 None] w))
  = [CallRun ["unzip"; "a.zip"]; CallRemove "a.zip"].
Proof.
  intros rt w.
  rewrite (dispatcher_reads_names_only [mkDirEntry "a.zip" true 1 None]
             [mkDirEntry "a.zip" false 7 None] eq_refl).
  reflexivity.
Defined.

Lemma Ext_no_dot s : hasDot s = false -> filepath.Ext s = "".
Proof.
  induction s as [|c s IH]; simpl; [done|].
  intros Hd. apply orb_false_iff in Hd as [Hc Hs].
  by rewrite (IH Hs), Hc.
Qed.

Lemma Ext_suffix base suffix :
  hasDot suffix = false -> filepath.hasSeparator suffix = false ->
  filepath.Ext (base +:+ String "." suffix) = String "." suffix.
Proof.
  intros Hd Hs. induction base as [|c base IH].
  - rewrite append_EmptyString. simpl. by rewrite (Ext_no_dot _ Hd), Hs.
  - rewrite append_String. simpl. by rewrite IH.
Qed.

(** X13. Only what follows the last dot of a name decides: whatever comes
    before it (other dots included, as in [x.tar.gz]), a name ending in
    [.zip], [.gz], [.tgz], [.tar] or [.7z], in either case of the ASCII
    letters, gets the command of its extension, a name ending in another
    dot-free suffix whose lower-cased form is not in the table gets none,
    and a name with no dot gets none. *)
Theorem archive_decided_by_last_extension {rt : Runtime} base :
  (forall suffix,
     suffix ∈ ["zip"; "ZIP"; "Zip"] ->
     archiveCommand (base +:+ String "." suffix)
     = Some ["unzip"; base +:+ String "." suffix])
  /\ (forall suffix,
        suffix ∈ ["gz"; "GZ"; "tgz"; "TGZ"] ->
        archiveCommand (base +:+ String "." suffix)
        = Some ["tar"; "-xzf"; base +:+ String "." suffix])
  /\ (forall suffix,
        suffix ∈ ["tar"; "TAR"] ->
        archiveCommand (base +:+ String "." suffix)
        = Some ["tar"; "-xf"; base +:+ String "." suffix])
  /\ (forall suffix,
        suffix ∈ ["7z"; "7Z"] ->
        archiveCommand (base +:+ String "." suffix)
        = Some ["7z"; "x"; base +:+ String "." suffix])
  /\ (forall suffix,
        hasDot suffix = false -> filepath.hasSeparator suffix = false ->
        ToLower (String "." suffix) ∉ [".zip"; ".gz"; ".tgz"; ".tar"; ".7z"] ->
        archiveCommand (base +:+ String "." suffix) = None)
  /\ (hasDot base = false -> archiveCommand base = None).
Proof.
  assert (Hext : forall suffix,
    hasDot suffix = false -> filepath.hasSeparator suffix = false ->
    archiveCommand (base +:+ String "." suffix)
    = let ext := ToLower (String "." suffix) in
      let name := base +:+ String "." suffix in
      if String.eqb ext ".zip" then Some ["unzip"; name]
      else if String.eqb ext ".gz" || String.eqb ext ".tgz"
           then Some ["tar"; "-xzf"; name]
      else if String.eqb ext ".tar" then Some ["tar"; "-xf"; name]
      else if String.eqb ext ".7z" then Some ["7z"; "x"; name]
      else None).
  { intros suffix Hd Hs. unfold archiveCommand. by rewrite Ext_suffix. }
  repeat split.
  - intros suffix Hin. repeat (apply elem_of_cons in Hin as [->|Hin];
      [by rewrite Hext|]). by apply elem_of_nil in Hin.
  - intros suffix Hin. repeat (apply elem_of_cons in Hin as [->|Hin];
      [by rewrite Hext|]). by apply elem_of_nil in Hin.
  - intros suffix Hin. repeat (apply elem_of_cons in Hin as [->|Hin];
      [by rewrite Hext|]). by apply elem_of_nil in Hin.
  - intros suffix Hin. repeat (apply elem_of_cons in Hin as [->|Hin];
      [by rewrite Hext|]). by apply elem_of_nil in Hin.
  - intros suffix Hd Hs Hnot. rewrite Hext by done. simpl.
    repeat match goal with
    | |- context [String.eqb ?e ?s] =>
        destruct (String.eqb_spec e s) as [Heq|_];
        [exfalso; apply Hnot; rewrite Heq; set_solver|]
    end.
    done.
  - intros Hd. unfold archiveCommand. by rewrite Ext_no_dot.
Qed.

Lemma archive_decided_by_last_extension_witness :
  archiveCommand (rt := calmRuntime []) "backup.tar.GZ"
  = Some ["tar"; "-xzf"; "backup.tar.GZ"]
  /\ archiveCommand (rt := calmRuntime []) "backup.tar.bz2" = None
  /\ archiveCommand (rt := calmRuntime []) "zip" = None.
Proof.
  destruct (@archive_decided_by_last_extension (calmRuntime []) "backup.tar")
    as (_ & Hgz & _ & _ & Hother & _).
  destruct (@archive_decided_by_last_extension (calmRuntime []) "zip")
    as (_ & _ & _ & _ & _ & Hnodot).
  split; [|split].
  - apply (Hgz "GZ"). rewrite !elem_of_cons. auto.
  - apply (Hother "bz2"); [reflexivity..|].
    replace (ToLower ".bz2") with ".bz2" by reflexivity.
    rewrite !not_elem_of_cons. repeat split; try discriminate.
    apply not_elem_of_nil.
  - apply Hnodot. reflexivity.
Defined.

(** ** The process *)

(** X14. When the move fails or panics the dispatcher is not started, with
    or without [--unarchive]: the process ends with status 1 (or the panic)
    having made only the calls of the move, and the files are as the move
    left them. *)
Theorem failed_move_skips_dispatch {rt : Runtime} cfg args w :
  (forall err w1,
     moveNthNewestFile (withArgs cfg args) w = (inl (Some err), w1) ->
     exists w',
       Execute cfg args w = (Exited 1, w')
       /\ calls w' = calls w1 /\ files w' = files w1)
  /\ (forall ab w1,
        moveNthNewestFile (withArgs cfg args) w = (inr ab, w1) ->
        Execute cfg args w = (ab, w1)).
Proof.
  split.
  - intros err w1 Hmove. unfold Execute, rootCmd_Run, bind.
    rewrite Hmove. simpl. by eexists.
  - intros ab w1 Hmove. unfold Execute, rootCmd_Run, bind.
    by rewrite Hmove.
Qed.

Lemma failed_move_skips_dispatch_witness :
  let rt := calmRuntime notesAndArchive in
  let w := mkWorld {[ "archive.ZIP" := threeBytes ]} [] [] [] in
  exists w',
    Execute (mkFlags "/dl" 3 "" true) [] w = (Exited 1, w')
    /\ calls w' = [CallReadDir "/dl"]
    /\ files w' = files w.
Proof.
  intros rt w.
  destruct (@failed_move_skips_dispatch rt (mkFlags "/dl" 3 "" true) [] w)
    as [Hfail _].
  destruct (Hfail (OutOfRange 3 2) (record (CallReadDir "/dl") w))
    as (w' & Hrun & Hcalls & Hfiles); [reflexivity|].
  exists w'. split; [exact Hrun|]. split; [exact Hcalls|exact Hfiles].
Defined.
